(** * Browser compatibility validator: the rule-based analysis engine

    Shallow embedding of [src/browser_compatibility_validator.py]
    (class [BrowserCompatibilityValidator]): the three analyzers
    [analyze_html], [analyze_css], [analyze_js], the report builder
    [generate_compatibility_report] and the driver [run_full_analysis].

    Modelling conventions.
    - A Python [str] is a [string]; one [ascii] stands for one code point
      below 256.  On that range [\d] is ['0'..'9'], and [\s] and
      [str.strip] use the white space of [str.isspace].
    - A Python list of messages is a [list string]; [append] adds at the end.
    - A Python dict is an association list in insertion order; assigning to
      a key that is present keeps its position.
    - The file system and the optional HTML parser are read through an
      environment record; [self.results] is threaded explicitly.
    - The report builder is also given on a store of objects with
      references, where what it shares with the state is visible. *)

From Stdlib Require Import Strings.String Strings.Ascii Lists.List Arith.Arith
  Bool.Bool Lia Numbers.DecimalString.
Import ListNotations.
Open Scope string_scope.
Open Scope list_scope.
Open Scope nat_scope.

(* ================================================================== *)
(** ** Characters and strings *)

Module Text.

Definition code (c : ascii) : nat := nat_of_ascii c.

(** [\d] on code points below 256. *)
Definition is_digit (c : ascii) : bool :=
  (48 <=? code c) && (code c <=? 57).

(** [str.isspace] / [\s] on code points below 256:
    TAB..CR, FS..US, SPACE, NEL, NBSP. *)
Definition is_space (c : ascii) : bool :=
  ((9 <=? code c) && (code c <=? 13))
  || ((28 <=? code c) && (code c <=? 32))
  || (code c =? 133) || (code c =? 160).

(** Lower-casing on code points below 256, as [str.lower] and
    [re.IGNORECASE] do it: A..Z and the accented capitals move up by 32. *)
Definition is_upper (c : ascii) : bool :=
  ((65 <=? code c) && (code c <=? 90))
  || ((192 <=? code c) && (code c <=? 222) && negb (code c =? 215)).

Definition lower (c : ascii) : ascii :=
  if is_upper c then ascii_of_nat (code c + 32) else c.

Fixpoint lower_str (s : string) : string :=
  match s with
  | EmptyString => EmptyString
  | String c s' => String (lower c) (lower_str s')
  end.

(** [s.startswith(p)] *)
Fixpoint startswith (p s : string) : bool :=
  match p with
  | EmptyString => true
  | String a p' =>
      match s with
      | EmptyString => false
      | String b s' => Ascii.eqb a b && startswith p' s'
      end
  end.

(** [sub in s] *)
Fixpoint contains (sub s : string) : bool :=
  startswith sub s
  || match s with
     | EmptyString => false
     | String _ s' => contains sub s'
     end.

Fixpoint lstrip (s : string) : string :=
  match s with
  | EmptyString => EmptyString
  | String c s' => if is_space c then lstrip s' else s
  end.

(** [rstrip] keeps a character when it is not white space or when
    something is kept after it. *)
Fixpoint rstrip (s : string) : string :=
  match s with
  | EmptyString => EmptyString
  | String c s' =>
      match rstrip s' with
      | EmptyString => if is_space c then EmptyString else String c EmptyString
      | t => String c t
      end
  end.

(** [s.strip()] *)
Definition strip (s : string) : string := rstrip (lstrip s).

Fixpoint drop (n : nat) (s : string) : string :=
  match n with
  | 0 => s
  | S k => match s with
           | EmptyString => EmptyString
           | String _ s' => drop k s'
           end
  end.

Fixpoint take (n : nat) (s : string) : string :=
  match n with
  | 0 => EmptyString
  | S k => match s with
           | EmptyString => EmptyString
           | String c s' => String c (take k s')
           end
  end.

(** [str(n)] for a non-negative integer. *)
Definition str_of_nat (n : nat) : string :=
  NilZero.string_of_uint (Nat.to_uint n).

End Text.

(* ================================================================== *)
(** ** The fragment of [re] the validator uses

    Every repetition in the source patterns is over a one-character atom
    ([\s*], [\s+], [\d+], [[^)]*], [[^>]*], [[^{]+], [[a-z]{2}]), so the
    abstract syntax has a greedy star over a character set only. *)

Module Re.
Import Text.

Inductive regex : Type :=
| Lit (c : ascii)                 (* a literal character *)
| Set_ (p : ascii -> bool)        (* \d, \s, [...] *)
| Many (p : ascii -> bool)        (* greedy  x*  over a one-character atom *)
| Cat (r1 r2 : regex)
| Alt (r1 r2 : regex)
| Eps.

(** [x+] over a one-character atom. *)
Definition Some_ (p : ascii -> bool) : regex := Cat (Set_ p) (Many p).

(** A literal word. *)
Fixpoint word (s : string) : regex :=
  match s with
  | EmptyString => Eps
  | String c EmptyString => Lit c
  | String c s' => Cat (Lit c) (word s')
  end.

(** [a|b|c] from the list of its alternatives ([pattern.split('|')]). *)
Fixpoint alts (rs : list regex) : regex :=
  match rs with
  | [] => Eps
  | [r] => r
  | r :: rs' => Alt r (alts rs')
  end.

(** The remainders left by a greedy run of [p], longest run first: the
    order in which the backtracking matcher tries them. *)
Fixpoint many (p : ascii -> bool) (s : string) : list string :=
  match s with
  | EmptyString => [s]
  | String c s' => if p c then many p s' ++ [s] else [s]
  end.

(** [rmatch ic r s]: every way [r] matches at the start of [s], as the
    text left after the match, in the matcher's order of preference;
    the head is the match [re] reports.  [ic] is [re.IGNORECASE]. *)
Fixpoint rmatch (ic : bool) (r : regex) (s : string) : list string :=
  match r with
  | Eps => [s]
  | Lit c =>
      match s with
      | String c' s' =>
          if (if ic then Ascii.eqb (lower c) (lower c') else Ascii.eqb c c')
          then [s'] else []
      | EmptyString => []
      end
  | Set_ p =>
      match s with
      | String c' s' => if p (if ic then lower c' else c') then [s'] else []
      | EmptyString => []
      end
  | Many p => many (fun c => p (if ic then lower c else c)) s
  | Cat r1 r2 => flat_map (rmatch ic r2) (rmatch ic r1 s)
  | Alt r1 r2 => rmatch ic r1 s ++ rmatch ic r2 s
  end.

(** [re.search(r, s) is not None] *)
Fixpoint search (ic : bool) (r : regex) (s : string) : bool :=
  match rmatch ic r s with
  | _ :: _ => true
  | [] => match s with
          | EmptyString => false
          | String _ s' => search ic r s'
          end
  end.

(** [re.findall(r, s)] for a pattern without groups: the matched texts,
    left to right, never overlapping.  [skip] counts the characters of
    the last match still to step over.  (An empty match is recorded and
    the scan moves one character on; no pattern of the validator can
    match the empty text.) *)
Fixpoint findall_from (r : regex) (skip : nat) (s : string) : list string :=
  match skip with
  | S k =>
      match s with
      | EmptyString => []
      | String _ s' => findall_from r k s'
      end
  | 0 =>
      match rmatch false r s with
      | rest :: _ =>
          let n := String.length s - String.length rest in
          take n s ::
            match s with
            | EmptyString => []
            | String _ s' => findall_from r (n - 1) s'
            end
      | [] =>
          match s with
          | EmptyString => []
          | String _ s' => findall_from r 0 s'
          end
      end
  end.

Definition findall (r : regex) (s : string) : list string :=
  findall_from r 0 s.

Definition one_of (cs : string) (c : ascii) : bool :=
  contains (String c EmptyString) cs.

Definition none_of (cs : string) (c : ascii) : bool := negb (one_of cs c).

End Re.

Import Text Re.

(* ================================================================== *)
(** ** The validator's state and its environment *)

(** An entry of [results['file_analysis']]; the constructor is the shape of
    the dict each analyzer stores. *)
Inductive metrics : Type :=
| HtmlMetrics (file : string) (size : nat) (issues_count : nat)
| CssMetrics (file : string) (size : nat) (media_queries : nat)
             (fixed_vs_responsive_ratio : string)
| JsMetrics (file : string) (size : nat)
            (has_feature_detection has_error_handling uses_animation_frame : bool).

Definition metrics_file (m : metrics) : string :=
  match m with
  | HtmlMetrics f _ _ => f
  | CssMetrics f _ _ _ => f
  | JsMetrics f _ _ _ _ => f
  end.

Definition dict (V : Type) : Type := list (string * V).

(** [d[k] = v] *)
Fixpoint dict_set {V : Type} (k : string) (v : V) (d : dict V) : dict V :=
  match d with
  | [] => [(k, v)]
  | (k', v') :: d' =>
      if String.eqb k k' then (k', v) :: d' else (k', v') :: dict_set k v d'
  end.

(** [d.get(k)] *)
Fixpoint dict_get {V : Type} (k : string) (d : dict V) : option V :=
  match d with
  | [] => None
  | (k', v') :: d' => if String.eqb k k' then Some v' else dict_get k d'
  end.

Definition keys {V : Type} (d : dict V) : list string := map fst d.

(** [self.results] *)
Record results : Type := mkResults {
  file_analysis : dict metrics;
  compatibility_issues : list string;
  responsive_design : dict nat;
  performance_concerns : list string;
  recommendations : list string
}.

(** [self.results] as [__init__] leaves it. *)
Definition init : results := mkResults [] [] [] [] [].

Definition add_issue (msg : string) (st : results) : results :=
  mkResults (file_analysis st) (compatibility_issues st ++ [msg])
            (responsive_design st) (performance_concerns st) (recommendations st).

Definition add_concern (msg : string) (st : results) : results :=
  mkResults (file_analysis st) (compatibility_issues st)
            (responsive_design st) (performance_concerns st ++ [msg])
            (recommendations st).

Definition add_recommendation (msg : string) (st : results) : results :=
  mkResults (file_analysis st) (compatibility_issues st)
            (responsive_design st) (performance_concerns st)
            (recommendations st ++ [msg]).

Definition set_responsive (k : string) (v : nat) (st : results) : results :=
  mkResults (file_analysis st) (compatibility_issues st)
            (dict_set k v (responsive_design st)) (performance_concerns st)
            (recommendations st).

Definition set_file_analysis (k : string) (m : metrics) (st : results) : results :=
  mkResults (dict_set k m (file_analysis st)) (compatibility_issues st)
            (responsive_design st) (performance_concerns st) (recommendations st).

(** [if c: f(st)] *)
Definition when (c : bool) (f : results -> results) (st : results) : results :=
  if c then f st else st.

(** What [base_dir / file_path] is on disk: absent ([exists()] is false),
    present but [open]/[read] raises (the text of the exception is kept), or
    readable with its decoded text and its size in bytes. *)
Inductive file_entry : Type :=
| Missing
| Unreadable (err : string)
| Readable (content : string) (size : nat).

(** The collaborators of the engine.  [soup] stands for the two loops over
    the BeautifulSoup parse: whether some [img] has neither [srcset] nor
    [loading], and whether some [a] has no [role].  It stands for a parse
    that returns; a parse that raises inside the [try] is not modelled, and
    the properties below that would feel it are stated for
    [BS4_AVAILABLE = false], where the parser is never called. *)
Record env : Type := mkEnv {
  fs : string -> file_entry;
  BS4_AVAILABLE : bool;
  soup : string -> bool * bool
}.

(* ================================================================== *)
(** ** The patterns of the source *)

Module Patterns.

(** The class of the two quote characters, written [Q] below. *)
Definition quote (c : ascii) : bool := (code c =? 34) || (code c =? 39).

Definition is_not (x : string) (c : ascii) : bool := none_of x c.

Definition lower_letter (c : ascii) : bool := (97 <=? code c) && (code c <=? 122).

Fixpoint seq (rs : list regex) : regex :=
  match rs with
  | [] => Eps
  | [r] => r
  | r :: rs' => Cat r (seq rs')
  end.

(** [<meta\s+name=Q viewport Q] *)
Definition viewport_re : regex :=
  seq [word "<meta"; Some_ is_space; word "name="; Set_ quote;
       word "viewport"; Set_ quote].

(** [<html\s+[^>]*lang=Q[a-z]{2}Q] *)
Definition lang_re : regex :=
  seq [word "<html"; Some_ is_space; Many (is_not ">"); word "lang=";
       Set_ quote; Set_ lower_letter; Set_ lower_letter; Set_ quote].

(** [aria-label] *)
Definition aria_re : regex := word "aria-label".

(** [@media\s+[^{]+{] *)
Definition media_re : regex :=
  seq [word "@media"; Some_ is_space; Some_ (is_not "{"); Lit "{"].

(** [\d+px] *)
Definition px_re : regex := Cat (Some_ is_digit) (word "px").

(** [\d+(?:em|rem|%|vh|vw)] *)
Definition relative_re : regex :=
  Cat (Some_ is_digit)
      (alts [word "em"; word "rem"; word "%"; word "vh"; word "vw"]).

(** [if\s*\(\s*navigator\.mediaDevices] *)
Definition media_devices_guard_re : regex :=
  seq [word "if"; Many is_space; Lit "("; Many is_space;
       word "navigator.mediaDevices"].

(** [if\s*\([^)]*] *)
Definition if_open_re : regex :=
  seq [word "if"; Many is_space; Lit "("; Many (is_not ")")].

(** [getContext\s*\(\s*Q 2d Q\s*\)] *)
Definition canvas_re : regex :=
  seq [word "getContext"; Many is_space; Lit "("; Many is_space; Set_ quote;
       word "2d"; Set_ quote; Many is_space; Lit ")"].

(** [window\.matchMedia\s*\(\s*Q orientation] *)
Definition match_media_re : regex :=
  seq [word "window.matchMedia"; Many is_space; Lit "("; Many is_space;
       Set_ quote; word "orientation"].

(** [compatibility_patterns]: each pattern as the list of its
    alternatives, which is what [pattern.split('|')] gives. *)
Definition compatibility_patterns : list (string * list regex) :=
  [ ("getUserMedia",
      [word "navigator.getUserMedia"; word "navigator.mediaDevices.getUserMedia"]);
    ("Canvas API", [canvas_re]);
    ("Touch Events", [word "touchstart"; word "touchmove"; word "touchend"]);
    ("Orientation", [word "orientation"; match_media_re]) ].

(** [r'if\s*\([^)]*' + pattern.split('|')[0]] *)
Definition detection_re (pattern : list regex) : regex :=
  Cat if_open_re (hd Eps pattern).

End Patterns.

Import Patterns.

(* ================================================================== *)
(** ** The analyzers *)

Definition viewport_msg := "Missing viewport meta tag for responsive design".
Definition doctype_msg := "Missing HTML5 doctype declaration".
Definition lang_msg := "Missing language attribute on html element".
Definition playsinline_msg :=
  "Missing 'playsinline' attribute on video element for iOS compatibility".
Definition aria_msg := "Consider adding ARIA labels for better accessibility".
Definition img_msg :=
  "Consider adding 'srcset' or 'loading' attributes to images for better performance".
Definition role_msg := "Links used as buttons should have role='button' attribute".

Definition html_not_found (file_path : string) : string :=
  ("HTML file not found: " ++ file_path)%string.
Definition css_not_found (file_path : string) : string :=
  ("CSS file not found: " ++ file_path)%string.
Definition js_not_found (file_path : string) : string :=
  ("JavaScript file not found: " ++ file_path)%string.

(** [len([i for i in self.results['compatibility_issues'] if file_path in i])] *)
Definition issues_naming (file_path : string) (st : results) : nat :=
  List.length (filter (contains file_path) (compatibility_issues st)).

Definition analyze_html (e : env) (file_path : string) (st : results)
  : bool * results :=
  match fs e file_path with
  | Missing => (false, add_issue (html_not_found file_path) st)
  | Unreadable err => (false, add_issue ("Error analyzing HTML: " ++ err)%string st)
  | Readable html_content size =>
      let st := when (negb (search true viewport_re html_content))
                     (add_issue viewport_msg) st in
      let st := when (negb (startswith "<!DOCTYPE html>" (strip html_content)))
                     (add_issue doctype_msg) st in
      let st := when (negb (search true lang_re html_content))
                     (add_issue lang_msg) st in
      let st := when (contains "<video" html_content
                      && negb (contains "playsinline" html_content))
                     (add_issue playsinline_msg) st in
      let st := when (negb (search true aria_re html_content))
                     (add_recommendation aria_msg) st in
      let st := when (BS4_AVAILABLE e && fst (soup e html_content))
                     (add_recommendation img_msg) st in
      let st := when (BS4_AVAILABLE e && snd (soup e html_content))
                     (add_recommendation role_msg) st in
      let st := set_file_analysis "html"
                  (HtmlMetrics file_path size (issues_naming file_path st)) st in
      (true, st)
  end.

Definition no_media_msg := "No media queries found for responsive design".
Definition flex_msg :=
  "Consider adding vendor prefixes for flexbox for better compatibility".
Definition prefix_msg := "Consider adding vendor prefixes for transforms/transitions".
Definition will_change_msg :=
  "Consider using 'will-change' property for animation performance".
Definition units_msg :=
  "Consider using more responsive units (em, rem, %, vh, vw) instead of fixed pixels".

Definition analyze_css (e : env) (file_path : string) (st : results)
  : bool * results :=
  match fs e file_path with
  | Missing => (false, add_issue (css_not_found file_path) st)
  | Unreadable err => (false, add_issue ("Error analyzing CSS: " ++ err)%string st)
  | Readable css_content size =>
      let media_queries := findall media_re css_content in
      let st := match media_queries with
                | [] => add_issue no_media_msg st
                | _ => set_responsive "media_queries" (List.length media_queries) st
                end in
      let st := when (contains "display: flex" css_content
                      && (negb (contains "-webkit-flex" css_content)
                          && negb (contains "-ms-flexbox" css_content)))
                     (add_recommendation flex_msg) st in
      let st := when ((contains "transform:" css_content
                       && negb (contains "-webkit-transform:" css_content))
                      || (contains "transition:" css_content
                          && negb (contains "-webkit-transition:" css_content)))
                     (add_recommendation prefix_msg) st in
      let st := when ((contains "animation:" css_content
                       || contains "transition:" css_content)
                      && negb (contains "will-change:" css_content))
                     (add_recommendation will_change_msg) st in
      let fixed_units := List.length (findall px_re css_content) in
      let responsive_units := List.length (findall relative_re css_content) in
      let st := when (responsive_units <? fixed_units)
                     (add_recommendation units_msg) st in
      let st := set_responsive "fixed_units" fixed_units st in
      let st := set_responsive "responsive_units" responsive_units st in
      let st := set_file_analysis "css"
                  (CssMetrics file_path size (List.length media_queries)
                     (str_of_nat fixed_units ++ ":" ++ str_of_nat responsive_units)%string)
                  st in
      (true, st)
  end.

Definition media_devices_msg := "Missing feature detection for MediaDevices API".
Definition try_catch_msg := "Missing try/catch blocks for error handling".
Definition interval_msg :=
  "Consider using requestAnimationFrame instead of setInterval for animations".
Definition polyfill_msg := "Consider adding polyfills for broader browser support".
Definition detection_msg (feature : string) : string :=
  ("Consider adding feature detection for " ++ feature)%string.

(** The body of the loop over [compatibility_patterns]. *)
Definition check_pattern (js_content : string) (st : results)
  (fp : string * list regex) : results :=
  when (search false (alts (snd fp)) js_content
        && negb (search false (detection_re (snd fp)) js_content))
       (add_recommendation (detection_msg (fst fp))) st.

(** The recommendations the loop over [compatibility_patterns] adds. *)
Definition pattern_recs (c : string) (ps : list (string * list regex)) : list string :=
  flat_map (fun fp =>
              if search false (alts (snd fp)) c
                 && negb (search false (detection_re (snd fp)) c)
              then [detection_msg (fst fp)] else []) ps.

Definition analyze_js (e : env) (file_path : string) (st : results)
  : bool * results :=
  match fs e file_path with
  | Missing => (false, add_issue (js_not_found file_path) st)
  | Unreadable err =>
      (false, add_issue ("Error analyzing JavaScript: " ++ err)%string st)
  | Readable js_content size =>
      let st := when (contains "navigator.mediaDevices" js_content
                      && negb (search false media_devices_guard_re js_content))
                     (add_issue media_devices_msg) st in
      let st := when (negb (contains "try" js_content)
                      || negb (contains "catch" js_content))
                     (add_issue try_catch_msg) st in
      let st := when (contains "setInterval(" js_content
                      && negb (contains "requestAnimationFrame" js_content))
                     (add_concern interval_msg) st in
      let st := fold_left (check_pattern js_content) compatibility_patterns st in
      let st := when (negb (contains "polyfill" (lower_str js_content)))
                     (add_recommendation polyfill_msg) st in
      let st := set_file_analysis "js"
                  (JsMetrics file_path size
                     (contains "if (navigator.mediaDevices" js_content)
                     (contains "try" js_content && contains "catch" js_content)
                     (contains "requestAnimationFrame" js_content))
                  st in
      (true, st)
  end.

(* ================================================================== *)
(** ** The report *)

Record summary_t : Type := mkSummary {
  files_analyzed : nat;
  issues_found : nat;
  recommendations_count : nat   (* key 'recommendations' of the summary *)
}.

Record report : Type := mkReport {
  summary : summary_t;
  r_compatibility_issues : list string;
  r_responsive_design : dict nat;
  r_performance_concerns : list string;
  r_recommendations : list string;
  r_file_analysis : dict metrics;
  overall_assessment : string
}.

Definition assessment (n : nat) : string :=
  if n =? 0 then "Excellent - No compatibility issues detected"
  else if n <=? 2 then "Good - Minor compatibility issues detected"
  else if n <=? 5 then "Fair - Several compatibility issues detected"
  else "Poor - Multiple compatibility issues detected".

Definition generate_compatibility_report (st : results) : report :=
  mkReport
    (mkSummary (List.length (file_analysis st))
               (List.length (compatibility_issues st))
               (List.length (recommendations st)))
    (compatibility_issues st)
    (responsive_design st)
    (performance_concerns st)
    (recommendations st)
    (file_analysis st)
    (assessment (List.length (compatibility_issues st))).

(** [run_full_analysis]: the six analyzer calls in the order of the source
    ([analyze_all]), then the report that [save_report] builds before it
    writes anything.  Writing the report, drawing the chart and the two
    paths returned belong to the sinks; they can fail and are not part of
    this value. *)
Definition analyze_all (e : env) (st : results) : results :=
  let st := snd (analyze_html e "index.html" st) in
  let st := snd (analyze_html e "enhanced_index.html" st) in
  let st := snd (analyze_css e "styles.css" st) in
  let st := snd (analyze_css e "enhanced_styles.css" st) in
  let st := snd (analyze_js e "script.js" st) in
  let st := snd (analyze_js e "enhanced_script.js" st) in
  st.


(* ================================================================== *)
(** ** Sequences of analyzer calls *)

Inductive kind : Type := Html | Css | Js.

(** The key under which an analyzer stores its metrics. *)
Definition kind_key (k : kind) : string :=
  match k with Html => "html" | Css => "css" | Js => "js" end.

Definition analyze (e : env) (k : kind) (file_path : string) (st : results)
  : bool * results :=
  match k with
  | Html => analyze_html e file_path st
  | Css => analyze_css e file_path st
  | Js => analyze_js e file_path st
  end.

Definition not_found_msg (k : kind) (file_path : string) : string :=
  match k with
  | Html => html_not_found file_path
  | Css => css_not_found file_path
  | Js => js_not_found file_path
  end.


(** Any number of analyzer calls, one after the other, on one validator. *)
Definition run_calls (e : env) (calls : list (kind * string)) (st : results)
  : results :=
  fold_left (fun st c => snd (analyze e (fst c) (snd c) st)) calls st.

(** The six paths [run_full_analysis] reads. *)
Definition artifacts : list string :=
  ["index.html"; "enhanced_index.html"; "styles.css"; "enhanced_styles.css";
   "script.js"; "enhanced_script.js"].

(* ================================================================== *)
(** ** Vocabulary of the specification *)

(** The tier is the label that opens the assessment text, up to the first
    blank. *)
Fixpoint tier_of (a : string) : string :=
  match a with
  | EmptyString => EmptyString
  | String c a' => if Ascii.eqb c " " then EmptyString else String c (tier_of a')
  end.

(** Numeric-unit tokens counted as the specification words them: a unit
    that directly follows a digit.  [prev_digit] tells whether the
    character before [s] is a digit. *)
Fixpoint count_unit_tokens_from (units : list string) (prev_digit : bool)
  (s : string) : nat :=
  match s with
  | EmptyString => 0
  | String c s' =>
      (if prev_digit && existsb (fun u => startswith u s) units then 1 else 0)
      + count_unit_tokens_from units (is_digit c) s'
  end.

Definition count_unit_tokens (units : list string) (s : string) : nat :=
  count_unit_tokens_from units false s.

Definition fixed_unit_names : list string := ["px"].
Definition relative_unit_names : list string := ["em"; "rem"; "%"; "vh"; "vw"].

(** A unit name the token count is sound for: not empty, no digit in it. *)
Definition unit_ok (u : string) : bool :=
  negb (String.eqb u "")
  && forallb (fun c => negb (is_digit c)) (list_ascii_of_string u).

(** The pattern [\d+(?:u1|u2|...)] for a list of unit names; [px_re] and
    [relative_re] are instances. *)
Definition unit_re (units : list string) : regex :=
  Cat (Some_ is_digit) (alts (map word units)).

(** What is left of [t] after each unit name that [t] starts with, in the
    order of the alternatives. *)
Definition unit_rests (units : list string) (t : string) : list string :=
  flat_map (fun u => if startswith u t then [drop (String.length u) t] else [])
           units.


(* ================================================================== *)
(** ** The report builder on a store of objects

    [generate_compatibility_report] puts the lists and dicts of
    [self.results] themselves into the report, not copies.  Here objects
    live in a store and are named by references, so that what the builder
    creates and what it reads can be told apart. *)

Module Store.

Definition loc : Type := nat.

Inductive pyval : Type :=
| VInt (n : nat)
| VStr (s : string)
| VBool (b : bool)
| VRef (l : loc).

Inductive pyobj : Type :=
| OList (items : list pyval)
| ODict (entries : dict pyval).

Definition heap : Type := list pyobj.

Definition bind {A B : Type} (x : option A) (f : A -> option B) : option B :=
  match x with
  | Some a => f a
  | None => None
  end.

Notation "x <- e ;; k" := (bind e (fun x => k))
  (at level 61, e at next level, right associativity).

(** A new object gets the next free reference. *)
Definition alloc (o : pyobj) (h : heap) : loc * heap :=
  (List.length h, h ++ [o]).

Fixpoint replace_at (l : loc) (o : pyobj) (h : heap) : heap :=
  match h with
  | [] => []
  | x :: h' =>
      match l with
      | 0 => o :: h'
      | S l' => x :: replace_at l' o h'
      end
  end.

(** [len(v)]; [None] stands for the TypeError on a non-container. *)
Definition py_len (h : heap) (v : pyval) : option nat :=
  match v with
  | VRef l =>
      match nth_error h l with
      | Some (OList items) => Some (List.length items)
      | Some (ODict entries) => Some (List.length entries)
      | None => None
      end
  | _ => None
  end.

(** [d[k]] for the dict at [l]; [None] stands for the KeyError. *)
Definition getitem (h : heap) (l : loc) (k : string) : option pyval :=
  match nth_error h l with
  | Some (ODict entries) => dict_get k entries
  | _ => None
  end.

(** [d[k] = v] for the dict at [l]. *)
Definition setitem (h : heap) (l : loc) (k : string) (v : pyval) : option heap :=
  match nth_error h l with
  | Some (ODict entries) => Some (replace_at l (ODict (dict_set k v entries)) h)
  | _ => None
  end.

(** [generate_compatibility_report], with [self.results] the dict at
    [res].  The summary dict and the report dict are the only objects
    created; the other five values of the report are the references
    found in [self.results]. *)
Definition generate_compatibility_report_on (res : loc) (h : heap)
  : option (loc * heap) :=
  fa <- getitem h res "file_analysis" ;;
  n_files <- py_len h fa ;;
  ci <- getitem h res "compatibility_issues" ;;
  n_issues <- py_len h ci ;;
  recs <- getitem h res "recommendations" ;;
  n_recs <- py_len h recs ;;
  let (summary_ref, h) :=
    alloc (ODict [("files_analyzed", VInt n_files);
                  ("issues_found", VInt n_issues);
                  ("recommendations", VInt n_recs)]) h in
  ci <- getitem h res "compatibility_issues" ;;
  rd <- getitem h res "responsive_design" ;;
  pc <- getitem h res "performance_concerns" ;;
  recs <- getitem h res "recommendations" ;;
  fa <- getitem h res "file_analysis" ;;
  let (report_ref, h) :=
    alloc (ODict [("summary", VRef summary_ref);
                  ("compatibility_issues", ci);
                  ("responsive_design", rd);
                  ("performance_concerns", pc);
                  ("recommendations", recs);
                  ("file_analysis", fa)]) h in
  ci <- getitem h res "compatibility_issues" ;;
  n <- py_len h ci ;;
  h <- setitem h report_ref "overall_assessment" (VStr (assessment n)) ;;
  Some (report_ref, h).

(** *** Reading values back out of the store *)

Fixpoint mapM {A B : Type} (f : A -> option B) (xs : list A) : option (list B) :=
  match xs with
  | [] => Some []
  | x :: xs' =>
      y <- f x ;;
      ys <- mapM f xs' ;;
      Some (y :: ys)
  end.

Definition as_str (v : pyval) : option string :=
  match v with VStr s => Some s | _ => None end.

Definition as_nat (v : pyval) : option nat :=
  match v with VInt n => Some n | _ => None end.

Definition as_bool (v : pyval) : option bool :=
  match v with VBool b => Some b | _ => None end.

Definition load_list (h : heap) (v : pyval) : option (list pyval) :=
  match v with
  | VRef l => match nth_error h l with
              | Some (OList items) => Some items
              | _ => None
              end
  | _ => None
  end.

Definition load_dict (h : heap) (v : pyval) : option (dict pyval) :=
  match v with
  | VRef l => match nth_error h l with
              | Some (ODict entries) => Some entries
              | _ => None
              end
  | _ => None
  end.

Definition on_values {A : Type} (f : pyval -> option A) (d : dict pyval)
  : option (dict A) :=
  mapM (fun kv => x <- f (snd kv) ;; Some (fst kv, x)) d.

(** A list of messages. *)
Definition load_strs (h : heap) (v : pyval) : option (list string) :=
  items <- load_list h v ;; mapM as_str items.

(** [results['responsive_design']] *)
Definition load_counts (h : heap) (v : pyval) : option (dict nat) :=
  entries <- load_dict h v ;; on_values as_nat entries.

Definition field {A : Type} (k : string) (f : pyval -> option A)
  (d : dict pyval) : option A :=
  v <- dict_get k d ;; f v.

(** One entry of [file_analysis], told apart by its keys. *)
Definition load_metrics (h : heap) (v : pyval) : option metrics :=
  d <- load_dict h v ;;
  file <- field "file" as_str d ;;
  size <- field "size" as_nat d ;;
  match keys d with
  | [_; _; _] =>
      n <- field "issues_count" as_nat d ;;
      Some (HtmlMetrics file size n)
  | [_; _; _; _] =>
      mq <- field "media_queries" as_nat d ;;
      ratio <- field "fixed_vs_responsive_ratio" as_str d ;;
      Some (CssMetrics file size mq ratio)
  | [_; _; _; _; _] =>
      fd <- field "has_feature_detection" as_bool d ;;
      eh <- field "has_error_handling" as_bool d ;;
      af <- field "uses_animation_frame" as_bool d ;;
      Some (JsMetrics file size fd eh af)
  | _ => None
  end.

Definition load_file_analysis (h : heap) (v : pyval) : option (dict metrics) :=
  entries <- load_dict h v ;; on_values (load_metrics h) entries.

(** [self.results], the dict at [res], as a value. *)
Definition load_results (h : heap) (res : loc) : option results :=
  d <- load_dict h (VRef res) ;;
  fa <- field "file_analysis" (load_file_analysis h) d ;;
  ci <- field "compatibility_issues" (load_strs h) d ;;
  rd <- field "responsive_design" (load_counts h) d ;;
  pc <- field "performance_concerns" (load_strs h) d ;;
  recs <- field "recommendations" (load_strs h) d ;;
  Some (mkResults fa ci rd pc recs).

Definition load_summary (h : heap) (v : pyval) : option summary_t :=
  d <- load_dict h v ;;
  a <- field "files_analyzed" as_nat d ;;
  b <- field "issues_found" as_nat d ;;
  c <- field "recommendations" as_nat d ;;
  Some (mkSummary a b c).

(** The report, the dict at [r], as a value. *)
Definition load_report (h : heap) (r : loc) : option report :=
  d <- load_dict h (VRef r) ;;
  s <- field "summary" (load_summary h) d ;;
  ci <- field "compatibility_issues" (load_strs h) d ;;
  rd <- field "responsive_design" (load_counts h) d ;;
  pc <- field "performance_concerns" (load_strs h) d ;;
  recs <- field "recommendations" (load_strs h) d ;;
  fa <- field "file_analysis" (load_file_analysis h) d ;;
  a <- field "overall_assessment" as_str d ;;
  Some (mkReport s ci rd pc recs fa a).

(** [h'] still holds every object of [h], unchanged. *)
Definition preserves (h h' : heap) : Prop :=
  forall l o, nth_error h l = Some o -> nth_error h' l = Some o.

(** A small store: one validator after [analyze_html('index.html')] on a
    document that lacks only the doctype and an ARIA label. *)
Definition sample_heap : heap :=
  [ ODict [("file", VStr "index.html"); ("size", VInt 120); ("issues_count", VInt 0)];
    ODict [("html", VRef 0)];
    OList [VStr doctype_msg];
    ODict [];
    OList [];
    OList [VStr aria_msg];
    ODict [("file_analysis", VRef 1); ("compatibility_issues", VRef 2);
           ("responsive_design", VRef 3); ("performance_concerns", VRef 4);
           ("recommendations", VRef 5)] ].

Definition sample_results : results :=
  mkResults [("html", HtmlMetrics "index.html" 120 0)] [doctype_msg] [] []
            [aria_msg].

(** [self.results['compatibility_issues'].append(msg)], the statement by
    which every analyzer records an issue. *)
Definition append_item (h : heap) (l : loc) (v : pyval) : option heap :=
  match nth_error h l with
  | Some (OList items) => Some (replace_at l (OList (items ++ [v])) h)
  | _ => None
  end.

Definition add_issue_on (res : loc) (msg : string) (h : heap) : option heap :=
  ci <- getitem h res "compatibility_issues" ;;
  match ci with
  | VRef l => append_item h l (VStr msg)
  | _ => None
  end.

(** A report whose list of issues grew after it was built. *)
Definition with_late_issue (msg : string) (r : report) : report :=
  mkReport (summary r) (r_compatibility_issues r ++ [msg]) (r_responsive_design r)
           (r_performance_concerns r) (r_recommendations r) (r_file_analysis r)
           (overall_assessment r).

End Store.

(* ================================================================== *)
(** ** What one analyzer call adds *)

(** The compatibility issues [analyze_html] appends for a text it read, in
    the order of the four checks. *)
Definition html_issues (html_content : string) : list string :=
  (if negb (search true viewport_re html_content) then [viewport_msg] else [])
  ++ (if negb (startswith "<!DOCTYPE html>" (strip html_content))
      then [doctype_msg] else [])
  ++ (if negb (search true lang_re html_content) then [lang_msg] else [])
  ++ (if contains "<video" html_content
         && negb (contains "playsinline" html_content)
      then [playsinline_msg] else []).

Definition html_recs (e : env) (html_content : string) : list string :=
  (if negb (search true aria_re html_content) then [aria_msg] else [])
  ++ (if BS4_AVAILABLE e && fst (soup e html_content) then [img_msg] else [])
  ++ (if BS4_AVAILABLE e && snd (soup e html_content) then [role_msg] else []).

Definition css_issues (css_content : string) : list string :=
  match findall media_re css_content with
  | [] => [no_media_msg]
  | _ :: _ => []
  end.

Definition css_recs (css_content : string) : list string :=
  (if contains "display: flex" css_content
      && (negb (contains "-webkit-flex" css_content)
          && negb (contains "-ms-flexbox" css_content))
   then [flex_msg] else [])
  ++ (if (contains "transform:" css_content
          && negb (contains "-webkit-transform:" css_content))
         || (contains "transition:" css_content
             && negb (contains "-webkit-transition:" css_content))
      then [prefix_msg] else [])
  ++ (if (contains "animation:" css_content || contains "transition:" css_content)
         && negb (contains "will-change:" css_content)
      then [will_change_msg] else [])
  ++ (if List.length (findall relative_re css_content)
         <? List.length (findall px_re css_content)
      then [units_msg] else []).

Definition js_issues (js_content : string) : list string :=
  (if contains "navigator.mediaDevices" js_content
      && negb (search false media_devices_guard_re js_content)
   then [media_devices_msg] else [])
  ++ (if negb (contains "try" js_content) || negb (contains "catch" js_content)
      then [try_catch_msg] else []).

Definition js_concerns (js_content : string) : list string :=
  if contains "setInterval(" js_content
     && negb (contains "requestAnimationFrame" js_content)
  then [interval_msg] else [].

Definition js_recs (js_content : string) : list string :=
  pattern_recs js_content compatibility_patterns
  ++ (if negb (contains "polyfill" (lower_str js_content))
      then [polyfill_msg] else []).

(** The text each analyzer puts before [str(e)] in its [except] branch. *)
Definition error_prefix (k : kind) : string :=
  match k with
  | Html => "Error analyzing HTML: "
  | Css => "Error analyzing CSS: "
  | Js => "Error analyzing JavaScript: "
  end.

Definition emitted_issues (e : env) (k : kind) (file_path : string) : list string :=
  match fs e file_path with
  | Missing => [not_found_msg k file_path]
  | Unreadable err => [(error_prefix k ++ err)%string]
  | Readable content _ =>
      match k with
      | Html => html_issues content
      | Css => css_issues content
      | Js => js_issues content
      end
  end.

Definition emitted_concerns (e : env) (k : kind) (file_path : string) : list string :=
  match fs e file_path, k with
  | Readable content _, Js => js_concerns content
  | _, _ => []
  end.

Definition emitted_recs (e : env) (k : kind) (file_path : string) : list string :=
  match fs e file_path with
  | Readable content _ =>
      match k with
      | Html => html_recs e content
      | Css => css_recs content
      | Js => js_recs content
      end
  | _ => []
  end.

(** The most issues and recommendations one call of each analyzer can add:
    the number of [append] statements on its path. *)
Definition issue_cap (k : kind) : nat :=
  match k with Html => 4 | Css => 1 | Js => 2 end.

Definition rec_cap (k : kind) : nat :=
  match k with Html => 3 | Css => 4 | Js => 5 end.

Definition concern_cap (k : kind) : nat :=
  match k with Js => 1 | _ => 0 end.

Definition is_readable (f : file_entry) : bool :=
  match f with Readable _ _ => true | _ => false end.

(** How many of the six artifacts of a full run cannot be read. *)
Definition unreadable_artifacts (e : env) : nat :=
  List.length (filter (fun p => negb (is_readable (fs e p))) artifacts).

(** The calls [run_full_analysis] makes. *)
Definition full_run_calls : list (kind * string) :=
  [(Html, "index.html"); (Html, "enhanced_index.html");
   (Css, "styles.css"); (Css, "enhanced_styles.css");
   (Js, "script.js"); (Js, "enhanced_script.js")].

(** All of [s] is white space. *)
Definition all_space (s : string) : bool :=
  forallb is_space (list_ascii_of_string s).

(* ================================================================== *)
(** ** The chart *)

(** What [visualize_results] hands to the plotting library: the bars of the
    first plot and, when it is drawn, the two sizes of the pie. *)
Record chart : Type := mkChart {
  bars : list (string * nat);
  pie : option (nat * nat)
}.

(** How a call of [visualize_results] ends, up to the call of
    [plt.savefig]. *)
Inductive plot_outcome : Type :=
| NoPlotting               (* returns None: the plotting library is missing *)
| PieRaises                (* ax2.pie raises ValueError, not caught *)
| ToSavefig (c : chart).   (* the figure that is handed to plt.savefig *)

(** [visualize_results].  [ax2.pie] scales the two sizes by their sum; when
    both are 0 it raises [ValueError], and nothing in the function catches
    it.  Whether [plt.savefig] can write the file is the sink's matter. *)
Definition visualize_results (MATPLOTLIB_AVAILABLE : bool) (st : results)
  : plot_outcome :=
  if negb MATPLOTLIB_AVAILABLE then NoPlotting
  else
    let categories := ["Compatibility"; "Performance"; "Recommendations"] in
    let values := [List.length (compatibility_issues st);
                   List.length (performance_concerns st);
                   List.length (recommendations st)] in
    match dict_get "fixed_units" (responsive_design st),
          dict_get "responsive_units" (responsive_design st) with
    | Some f, Some r =>
        if f + r =? 0 then PieRaises
        else ToSavefig (mkChart (combine categories values) (Some (f, r)))
    | _, _ => ToSavefig (mkChart (combine categories values) None)
    end.

(* ================================================================== *)
(** ** Opening browsers *)

(** The calls [open_in_browsers] makes on the [webbrowser] module. *)
Inductive browser_call : Type :=
| OpenIn (browser : string)     (* webbrowser.get(browser).open(url) *)
| OpenDefault.                  (* webbrowser.open(url) *)

(** The collaborators: [urlparse] as the scheme and the network location it
    finds, or [None] when it raises [ValueError] (a malformed bracketed
    host), and whether [webbrowser.get] knows a browser (it raises
    [webbrowser.Error] when it does not). *)
Record web : Type := mkWeb {
  urlparse : string -> option (string * string);
  browser_known : string -> bool
}.

Definition browsers_to_try : list string := ["chrome"; "firefox"; "safari"; "edge"].

(** The loop over [browsers_to_try]: the count of browsers opened and the
    calls made, in order. *)
Definition try_browsers (w : web) (browsers : list string) : nat * list browser_call :=
  fold_left (fun acc browser =>
               if browser_known w browser
               then (fst acc + 1, snd acc ++ [OpenIn browser])
               else acc)
            browsers (0, []).

(** [open_in_browsers]: the value returned and the calls made; [None] when
    the [ValueError] of [urlparse] goes through to the caller. *)
Definition open_in_browsers (w : web) (url : string)
  : option (bool * list browser_call) :=
  match urlparse w url with
  | None => None
  | Some parsed_url =>
      if String.eqb (fst parsed_url) "" || String.eqb (snd parsed_url) ""
      then Some (false, [])
      else
        let tried := try_browsers w browsers_to_try in
        if fst tried =? 0
        then Some (0 <? 1, snd tried ++ [OpenDefault])
        else Some (0 <? fst tried, snd tried)
  end.

(* ================================================================== *)
(** ** Concrete inputs *)

(** A directory given by the files in it; every other path is absent. *)
Fixpoint disk_of (files : list (string * file_entry)) (p : string) : file_entry :=
  match files with
  | [] => Missing
  | (name, f) :: files' => if String.eqb p name then f else disk_of files' p
  end.

Definition no_soup (html : string) : bool * bool := (false, false).

(** An empty directory, without the optional parser. *)
Definition empty_disk : env := mkEnv (disk_of []) false no_soup.

Definition good_page : string :=
  "<!DOCTYPE html><html lang='en'><head><meta name='viewport' content='width=device-width'></head></html>".

Definition sample_files : list (string * file_entry) :=
  [ ("index.html", Readable "<p>hello</p>" 12);
    ("enhanced_index.html", Readable good_page 102);
    ("styles.css", Readable "10px 20px 1em" 13);
    ("script.js", Readable "if (navigator.mediaDevices.getUserMedia) {}" 43);
    ("enhanced_script.js", Readable "if( navigator.mediaDevices" 26) ].

(** Five of the six artifacts present; [enhanced_styles.css] is absent. *)
Definition sample_disk : env := mkEnv (disk_of sample_files) false no_soup.


(** A directory that holds one script, without the optional parser. *)
Definition script_disk (js : string) : env :=
  mkEnv (disk_of [("script.js", Readable js (String.length js))]) false no_soup.

(** A directory whose [index.html] exists but cannot be decoded. *)
Definition undecodable_disk : env :=
  mkEnv (disk_of [("index.html",
                   Unreadable "'utf-8' codec can't decode byte 0xff in position 0: invalid start byte")])
        false no_soup.

(** Agreement between the stylesheet entry of [file_analysis] and the unit
    counts of [responsive_design]. *)
Definition units_agree (st : results) : Prop :=
  match dict_get "css" (file_analysis st) with
  | Some (CssMetrics _ _ _ ratio) =>
      exists f r,
        dict_get "fixed_units" (responsive_design st) = Some f
        /\ dict_get "responsive_units" (responsive_design st) = Some r
        /\ ratio = (str_of_nat f ++ ":" ++ str_of_nat r)%string
  | Some _ => False
  | None =>
      dict_get "fixed_units" (responsive_design st) = None
      /\ dict_get "responsive_units" (responsive_design st) = None
  end.

(* ================================================================== *)
(** * Properties *)

(** ** Strings *)

Lemma startswith_refl (p r : string) : startswith p (p ++ r)%string = true.
Proof.
  induction p as [|a p IH]; simpl; [reflexivity|].
  now rewrite Ascii.eqb_refl.
Qed.

Lemma startswith_split (p s : string) :
  startswith p s = true -> exists r, s = (p ++ r)%string.
Proof.
  revert s; induction p as [|a p IH]; intros s H; simpl in *.
  - now exists s.
  - destruct s as [|b s]; [discriminate|].
    apply andb_true_iff in H as [Hab Hp].
    apply Ascii.eqb_eq in Hab; subst b.
    destruct (IH _ Hp) as [r ->]. now exists r.
Qed.

Lemma contains_here (p s : string) : startswith p s = true -> contains p s = true.
Proof. intros H; destruct s; simpl in *; rewrite H; reflexivity. Qed.

Lemma contains_later (p : string) (c : ascii) (s : string) :
  contains p s = true -> contains p (String c s) = true.
Proof.
  intros H. change (contains p (String c s))
    with (startswith p (String c s) || contains p s).
  rewrite H. apply orb_true_r.
Qed.

(** A message built as [prefix ++ name] names [name]. *)
Lemma contains_suffix (pre name : string) : contains name (pre ++ name)%string = true.
Proof.
  induction pre as [|c pre IH]; simpl String.append.
  - apply contains_here. rewrite <- (startswith_refl name "") at 1.
    f_equal. induction name; simpl; congruence.
  - now apply contains_later.
Qed.

(** ** Dicts *)

Lemma dict_get_set_same {V : Type} (k : string) (v : V) (d : dict V) :
  dict_get k (dict_set k v d) = Some v.
Proof.
  induction d as [|[k' v'] d IH]; simpl.
  - now rewrite String.eqb_refl.
  - destruct (String.eqb k k') eqn:E; simpl; rewrite E; auto.
Qed.

Lemma dict_get_set_other {V : Type} (k k' : string) (v : V) (d : dict V) :
  k <> k' -> dict_get k (dict_set k' v d) = dict_get k d.
Proof.
  intros Hne. induction d as [|[k2 v2] d IH]; simpl.
  - apply String.eqb_neq in Hne. now rewrite Hne.
  - destruct (String.eqb k' k2) eqn:E; simpl.
    + apply String.eqb_eq in E; subst k2.
      apply String.eqb_neq in Hne. now rewrite Hne.
    + now rewrite IH.
Qed.




(** ** What each analyzer does to each part of the state *)

Lemma when_issues (b : bool) (m : string) (st : results) :
  compatibility_issues (when b (add_issue m) st)
  = compatibility_issues st ++ (if b then [m] else []).
Proof. destruct b; simpl; [reflexivity|now rewrite app_nil_r]. Qed.

Lemma when_rec_issues (b : bool) (m : string) (st : results) :
  compatibility_issues (when b (add_recommendation m) st) = compatibility_issues st.
Proof. now destruct b. Qed.

Lemma when_concern_issues (b : bool) (m : string) (st : results) :
  compatibility_issues (when b (add_concern m) st) = compatibility_issues st.
Proof. now destruct b. Qed.

Lemma when_recs (b : bool) (m : string) (st : results) :
  recommendations (when b (add_recommendation m) st)
  = recommendations st ++ (if b then [m] else []).
Proof. destruct b; simpl; [reflexivity|now rewrite app_nil_r]. Qed.

Lemma when_issue_recs (b : bool) (m : string) (st : results) :
  recommendations (when b (add_issue m) st) = recommendations st.
Proof. now destruct b. Qed.

Lemma when_concern_recs (b : bool) (m : string) (st : results) :
  recommendations (when b (add_concern m) st) = recommendations st.
Proof. now destruct b. Qed.

Lemma when_issue_fa (b : bool) (m : string) (st : results) :
  file_analysis (when b (add_issue m) st) = file_analysis st.
Proof. now destruct b. Qed.

Lemma when_rec_fa (b : bool) (m : string) (st : results) :
  file_analysis (when b (add_recommendation m) st) = file_analysis st.
Proof. now destruct b. Qed.

Lemma when_concern_fa (b : bool) (m : string) (st : results) :
  file_analysis (when b (add_concern m) st) = file_analysis st.
Proof. now destruct b. Qed.

Lemma when_rec_rd (b : bool) (m : string) (st : results) :
  responsive_design (when b (add_recommendation m) st) = responsive_design st.
Proof. now destruct b. Qed.

Create Rewrite HintDb parts.
#[export] Hint Rewrite when_issues when_rec_issues when_concern_issues when_recs
  when_issue_recs when_concern_recs when_issue_fa when_rec_fa when_concern_fa
  when_rec_rd : parts.

Lemma fold_check_pattern_fa (c : string) (ps : list (string * list regex)) (st : results) :
  file_analysis (fold_left (check_pattern c) ps st) = file_analysis st.
Proof.
  revert st; induction ps as [|p ps IH]; intros st; simpl; [reflexivity|].
  rewrite IH. unfold check_pattern. now autorewrite with parts.
Qed.

Lemma fold_check_pattern_issues (c : string) (ps : list (string * list regex)) (st : results) :
  compatibility_issues (fold_left (check_pattern c) ps st) = compatibility_issues st.
Proof.
  revert st; induction ps as [|p ps IH]; intros st; simpl; [reflexivity|].
  rewrite IH. unfold check_pattern. now autorewrite with parts.
Qed.

Lemma fold_check_pattern_recs (c : string) (ps : list (string * list regex)) (st : results) :
  recommendations (fold_left (check_pattern c) ps st)
  = recommendations st ++ pattern_recs c ps.
Proof.
  revert st; induction ps as [|p ps IH]; intros st; simpl.
  - now rewrite app_nil_r.
  - rewrite IH. unfold check_pattern. autorewrite with parts.
    now rewrite <- app_assoc.
Qed.

(** The [file_analysis] dict after one analyzer call: one key set when the
    file was read, nothing otherwise. *)
Lemma analyze_file_analysis (e : env) (k : kind) (p : string) (st : results) :
  match fs e p with
  | Readable _ _ =>
      exists m, metrics_file m = p /\
                file_analysis (snd (analyze e k p st))
                = dict_set (kind_key k) m (file_analysis st)
  | _ => file_analysis (snd (analyze e k p st)) = file_analysis st
  end.
Proof.
  destruct k; unfold analyze, analyze_html, analyze_css, analyze_js;
    destruct (fs e p) as [|err|c size]; try reflexivity; cbv zeta.
  - eexists; split; [|cbn [snd set_file_analysis file_analysis];
                       autorewrite with parts; reflexivity].
    reflexivity.
  - destruct (findall media_re c);
      (eexists; split; [|cbn [snd set_file_analysis file_analysis set_responsive];
                         autorewrite with parts; reflexivity]);
      reflexivity.
  - eexists; split; [|cbn [snd set_file_analysis file_analysis];
                       autorewrite with parts; rewrite fold_check_pattern_fa;
                       autorewrite with parts; reflexivity].
    reflexivity.
Qed.

(* ================================================================== *)
(** ** The overall assessment *)

(** C1. The overall assessment depends on the state only through the number
    [n] of compatibility issues (recommendations, performance concerns and
    metrics play no part), and its tier is Excellent for [n = 0], Good for
    [1 <= n <= 2], Fair for [3 <= n <= 5] and Poor for [n > 5]; so 0, 2, 3,
    5 and 6 issues give Excellent, Good, Fair, Fair and Poor. *)
Theorem overall_assessment_by_issue_count (st st' : results) (n : nat) :
  List.length (compatibility_issues st) = n ->
  List.length (compatibility_issues st') = n ->
  let a := overall_assessment (generate_compatibility_report st) in
  overall_assessment (generate_compatibility_report st') = a
  /\ a = assessment n
  /\ (n = 0 -> tier_of a = "Excellent")
  /\ (1 <= n <= 2 -> tier_of a = "Good")
  /\ (3 <= n <= 5 -> tier_of a = "Fair")
  /\ (5 < n -> tier_of a = "Poor").
Proof.
  intros Hn Hn'. cbn [generate_compatibility_report overall_assessment].
  rewrite Hn, Hn'. split; [reflexivity|]. split; [reflexivity|].
  do 6 (destruct n as [|n]; [repeat split; intros; solve [reflexivity | lia]|]).
  repeat split; intros; solve [reflexivity | lia].
Qed.

Lemma overall_assessment_by_issue_count_witness :
  tier_of (overall_assessment
             (generate_compatibility_report
                (mkResults [] [viewport_msg; doctype_msg; lang_msg] [] [] [])))
  = "Fair".
Proof.
  destruct (overall_assessment_by_issue_count
              (mkResults [] [viewport_msg; doctype_msg; lang_msg] [] [] [])
              (mkResults [] [no_media_msg; try_catch_msg; lang_msg] []
                         [interval_msg] [aria_msg; polyfill_msg])
              3 eq_refl eq_refl) as (_ & _ & _ & _ & H & _).
  apply H. split; repeat constructor.
Defined.

(* ================================================================== *)
(** ** Missing files *)

(** C2, as the code has it.  When the path does not exist, the analyzer of
    any kind returns [False] without raising, appends exactly one
    compatibility issue, whose text ends with the file name, and changes
    nothing else: [file_analysis], and with it the report's
    [file_analysis], gets no entry for the artifact. *)
Theorem missing_file_is_one_issue (e : env) (k : kind) (file_path : string)
  (st : results) :
  fs e file_path = Missing ->
  let r := analyze e k file_path st in
  fst r = false
  /\ compatibility_issues (snd r)
     = compatibility_issues st ++ [not_found_msg k file_path]
  /\ contains file_path (not_found_msg k file_path) = true
  /\ file_analysis (snd r) = file_analysis st
  /\ responsive_design (snd r) = responsive_design st
  /\ performance_concerns (snd r) = performance_concerns st
  /\ recommendations (snd r) = recommendations st
  /\ r_file_analysis (generate_compatibility_report (snd r)) = file_analysis st.
Proof.
  intros Hfs.
  assert (Hname : contains file_path (not_found_msg k file_path) = true)
    by (destruct k; apply contains_suffix).
  destruct k; unfold analyze, analyze_html, analyze_css, analyze_js;
    rewrite Hfs; cbn; repeat split; assumption.
Qed.

Lemma missing_file_is_one_issue_witness :
  compatibility_issues (snd (analyze sample_disk Css "enhanced_styles.css" init))
  = ["CSS file not found: enhanced_styles.css"].
Proof.
  destruct (missing_file_is_one_issue sample_disk Css "enhanced_styles.css" init
              eq_refl) as (_ & H & _).
  exact H.
Defined.

(** C2, as the claim has it, fails: after the analysis of a path that does
    not exist, the report's [file_analysis] has no entry at all, hence none
    that marks the artifact as not analyzed. *)
Lemma missing_file_has_no_file_analysis_entry :
  let r := analyze_html empty_disk "index.html" init in
  fst r = false
  /\ r_file_analysis (generate_compatibility_report (snd r)) = []
  /\ ~ (exists key m,
          In (key, m) (r_file_analysis (generate_compatibility_report (snd r)))
          /\ metrics_file m = "index.html").
Proof.
  cbn. repeat split. intros (key & m & [] & _).
Qed.

(* ================================================================== *)
(** ** The markup analyzer *)

(** C4. For a readable markup file the issues grow by a list [emitted] in
    which the doctype issue occurs not at all when the stripped text starts
    with [<!DOCTYPE html>] (compared case-sensitively) and exactly once
    when it does not. *)
Theorem doctype_issue_iff_not_prefix (e : env) (file_path : string)
  (st : results) (html_content : string) (size : nat) :
  fs e file_path = Readable html_content size ->
  exists emitted,
    compatibility_issues (snd (analyze_html e file_path st))
    = compatibility_issues st ++ emitted
    /\ count_occ string_dec emitted doctype_msg
       = if startswith "<!DOCTYPE html>" (strip html_content) then 0 else 1.
Proof.
  intros Hfs. unfold analyze_html. rewrite Hfs.
  cbn [snd set_file_analysis compatibility_issues].
  autorewrite with parts. rewrite <- !app_assoc.
  eexists; split; [reflexivity|].
  rewrite !count_occ_app.
  destruct (startswith "<!DOCTYPE html>" (strip html_content));
    destruct (search true viewport_re html_content);
    destruct (search true lang_re html_content);
    destruct (contains "<video" html_content
              && negb (contains "playsinline" html_content));
    reflexivity.
Qed.

Lemma doctype_issue_iff_not_prefix_witness :
  exists emitted,
    compatibility_issues (snd (analyze_html sample_disk "enhanced_index.html" init))
    = [] ++ emitted
    /\ count_occ string_dec emitted doctype_msg = 0.
Proof.
  exact (doctype_issue_iff_not_prefix sample_disk "enhanced_index.html" init
           good_page _ eq_refl).
Defined.

(** C6, evaluated on the code.  [index.html] holds [<p>hello</p>]; its
    analysis, first on a fresh validator, emits three compatibility issues,
    and the [issues_count] it stores for the file is 0: the count looks for
    the file name in the messages, and no message of a file that was read
    carries it. *)
Theorem issues_count_misses_the_findings :
  let st := snd (analyze_html sample_disk "index.html" init) in
  compatibility_issues st = [viewport_msg; doctype_msg; lang_msg]
  /\ dict_get "html" (file_analysis st) = Some (HtmlMetrics "index.html" 12 0).
Proof. split; reflexivity. Qed.

(* ================================================================== *)
(** ** The [file_analysis] dict *)






(* ================================================================== *)
(** ** Matching *)

Lemma length_drop (j : nat) (s : string) :
  String.length (drop j s) = String.length s - j.
Proof.
  revert s; induction j as [|j IH]; intros s; simpl.
  - now rewrite Nat.sub_0_r.
  - destruct s; simpl; [reflexivity|apply IH].
Qed.

Lemma length_app_str (u r : string) :
  String.length (u ++ r)%string = String.length u + String.length r.
Proof. induction u; simpl; auto. Qed.

Lemma drop_app (u r : string) : drop (String.length u) (u ++ r)%string = r.
Proof. induction u; simpl; auto. Qed.

Lemma rmatch_word (u t : string) :
  rmatch false (word u) t
  = if startswith u t then [drop (String.length u) t] else [].
Proof.
  revert t; induction u as [|c u IH]; intros t; [reflexivity|].
  destruct u as [|d u].
  - destruct t as [|c' t]; simpl; [reflexivity|].
    destruct (Ascii.eqb c c'); reflexivity.
  - change (word (String c (String d u))) with (Cat (Lit c) (word (String d u))).
    destruct t as [|c' t]; [reflexivity|].
    cbn [rmatch startswith String.length drop].
    destruct (Ascii.eqb c c'); [|reflexivity].
    cbn [flat_map andb]. rewrite app_nil_r. apply IH.
Qed.

Lemma rmatch_alts_words (units : list string) (t : string) :
  units <> [] ->
  rmatch false (alts (map word units)) t = unit_rests units t.
Proof.
  intros Hne. induction units as [|u units IH]; [congruence|].
  destruct units as [|v units].
  - cbn [map alts unit_rests flat_map]. rewrite app_nil_r. apply rmatch_word.
  - change (alts (map word (u :: v :: units)))
      with (Alt (word u) (alts (map word (v :: units)))).
    cbn [rmatch]. rewrite rmatch_word, IH by discriminate. reflexivity.
Qed.

Lemma rmatch_unit_re (units : list string) (s : string) :
  rmatch false (unit_re units) s
  = match s with
    | EmptyString => []
    | String c s' =>
        if is_digit c
        then flat_map (rmatch false (alts (map word units))) (many is_digit s')
        else []
    end.
Proof.
  destruct s as [|c s']; [reflexivity|].
  unfold unit_re, Some_. cbn [rmatch].
  destruct (is_digit c); [|reflexivity].
  cbn [flat_map]. now rewrite app_nil_r.
Qed.

Lemma findall_from_skip (r : regex) (k : nat) (s : string) :
  k <= String.length s -> findall_from r k s = findall_from r 0 (drop k s).
Proof.
  revert s; induction k as [|k IH]; intros s Hk; [reflexivity|].
  destruct s as [|c s]; simpl in Hk; [lia|].
  cbn [findall_from drop]. apply IH. lia.
Qed.

Section UnitTokens.

Variable units : list string.
Hypothesis units_ok : forallb unit_ok units = true.
Hypothesis units_nonempty : units <> [].

Local Abbreviation cnt := (count_unit_tokens_from units).

Lemma unit_starts_without_digit (u : string) (c : ascii) (t : string) :
  unit_ok u = true -> is_digit c = true -> startswith u (String c t) = false.
Proof.
  intros Hu Hc. destruct u as [|a u]; [discriminate Hu|].
  unfold unit_ok in Hu. cbn in Hu.
  simpl. destruct (Ascii.eqb a c) eqn:E; [|reflexivity].
  apply Ascii.eqb_eq in E; subst a. rewrite Hc in Hu. discriminate Hu.
Qed.

Lemma no_unit_at_digit (c : ascii) (t : string) :
  is_digit c = true ->
  unit_rests units (String c t) = []
  /\ existsb (fun u => startswith u (String c t)) units = false.
Proof.
  intros Hc. clear units_nonempty. unfold unit_rests.
  induction units as [|u us IH]; [now split|].
  cbn [forallb] in units_ok. apply andb_true_iff in units_ok as [Hu Hus].
  cbn [flat_map existsb].
  rewrite (unit_starts_without_digit u c t Hu Hc).
  destruct (IH Hus) as [-> ->]. now split.
Qed.

(** The first unit name found at [t], if any. *)
Lemma unit_rests_head (t : string) :
  match unit_rests units t with
  | [] => existsb (fun u => startswith u t) units = false
  | rest :: _ =>
      exists u, unit_ok u = true /\ startswith u t = true
                /\ rest = drop (String.length u) t
                /\ existsb (fun u => startswith u t) units = true
  end.
Proof.
  clear units_nonempty. unfold unit_rests.
  induction units as [|u us IH]; [reflexivity|].
  cbn [forallb] in units_ok. apply andb_true_iff in units_ok as [Hu Hus].
  cbn [flat_map existsb].
  destruct (startswith u t) eqn:E.
  - cbn [app]. exists u. repeat split; auto.
  - cbn [app orb]. exact (IH Hus).
Qed.

Lemma cnt_skips_non_digits (w r : string) :
  forallb (fun c => negb (is_digit c)) (list_ascii_of_string w) = true ->
  cnt false (w ++ r)%string = cnt false r.
Proof.
  induction w as [|a w IH]; intros Hw; [reflexivity|].
  cbn in Hw. apply andb_true_iff in Hw as [Ha Hw].
  apply negb_true_iff in Ha.
  cbn [String.append count_unit_tokens_from andb]. rewrite Ha. now apply IH.
Qed.

Lemma cnt_at_unit (u t : string) :
  unit_ok u = true -> startswith u t = true ->
  existsb (fun u => startswith u t) units = true ->
  cnt true t = 1 + cnt false (drop (String.length u) t).
Proof.
  intros Hu Hst Hex. destruct (startswith_split _ _ Hst) as [r ->].
  rewrite drop_app. destruct u as [|a u]; [discriminate Hu|].
  unfold unit_ok in Hu. cbn in Hu. apply andb_true_iff in Hu as [Ha Hu].
  apply negb_true_iff in Ha.
  change (cnt true (String a u ++ r)%string)
    with ((if true && existsb (fun v => startswith v (String a u ++ r)%string) units
           then 1 else 0) + cnt (is_digit a) (u ++ r)%string).
  rewrite Hex, Ha. cbn [andb]. f_equal. now apply cnt_skips_non_digits.
Qed.

(** After the first digit of a run: the rest of the run, then a unit. *)
Lemma after_digits (s : string) :
  match flat_map (rmatch false (alts (map word units))) (many is_digit s) with
  | [] => cnt true s = cnt false s
  | rest :: _ =>
      exists j, j <= String.length s /\ rest = drop j s
                /\ cnt true s = 1 + cnt false rest
  end.
Proof.
  induction s as [|c s IH].
  - cbn [many flat_map]. rewrite app_nil_r, (rmatch_alts_words units _ units_nonempty).
    pose proof (unit_rests_head "") as H.
    destruct (unit_rests units "") as [|rest l]; [reflexivity|].
    destruct H as (u & Hu & Hst & _). destruct u; discriminate.
  - cbn [many]. destruct (is_digit c) eqn:Hc.
    + rewrite flat_map_app. cbn [flat_map].
      rewrite (rmatch_alts_words units (String c s) units_nonempty).
      destruct (no_unit_at_digit c s Hc) as [-> Hex]. rewrite !app_nil_r.
      assert (Hstep : forall b, cnt b (String c s) = cnt true s).
      { intros b. cbn [count_unit_tokens_from]. rewrite Hex, Hc.
        now rewrite andb_false_r. }
      destruct (flat_map _ (many is_digit s)) as [|rest l].
      * now rewrite !Hstep.
      * destruct IH as (j & Hj & -> & Hcnt).
        exists (S j). cbn [String.length drop]. rewrite Hstep.
        repeat split; [lia | exact Hcnt].
    + cbn [flat_map]. rewrite app_nil_r, (rmatch_alts_words units _ units_nonempty).
      pose proof (unit_rests_head (String c s)) as H.
      destruct (unit_rests units (String c s)) as [|rest l].
      * cbn [count_unit_tokens_from]. now rewrite H, andb_false_r.
      * destruct H as (u & Hu & Hst & -> & Hex).
        exists (String.length u). repeat split.
        -- destruct (startswith_split _ _ Hst) as [r E]. rewrite E.
           rewrite length_app_str. lia.
        -- now apply cnt_at_unit.
Qed.

(** [re.findall] on [\d+(?:units)] finds as many matches as there are
    unit tokens in the text. *)
Lemma findall_counts_unit_tokens (s : string) :
  List.length (findall (unit_re units) s) = count_unit_tokens units s.
Proof.
  unfold findall, count_unit_tokens.
  remember (String.length s) as n eqn:Hn.
  assert (Hle : String.length s <= n) by lia. clear Hn.
  revert s Hle. induction n as [|n IH]; intros s Hle.
  - destruct s; [reflexivity | simpl in Hle; lia].
  - destruct s as [|c s]; [reflexivity|]. simpl in Hle.
    cbn [findall_from]. rewrite rmatch_unit_re.
    destruct (is_digit c) eqn:Hc.
    + pose proof (after_digits s) as H.
      destruct (flat_map _ (many is_digit s)) as [|rest l].
      * cbn [count_unit_tokens_from andb]. rewrite Hc, H. cbn [Nat.add].
        apply IH. lia.
      * destruct H as (j & Hj & -> & Hcnt).
        cbn [List.length count_unit_tokens_from andb Nat.add].
        rewrite Hc, Hcnt. cbn [Nat.add]. f_equal.
        rewrite length_drop. cbn [String.length].
        replace (S (String.length s) - (String.length s - j) - 1) with j by lia.
        rewrite findall_from_skip by exact Hj.
        apply IH. rewrite length_drop. lia.
    + cbn [count_unit_tokens_from andb Nat.add]. rewrite Hc. apply IH. lia.
Qed.

End UnitTokens.

(* ================================================================== *)
(** ** The style analyzer *)

Lemma px_count (css : string) :
  List.length (findall px_re css) = count_unit_tokens fixed_unit_names css.
Proof.
  change px_re with (unit_re fixed_unit_names).
  apply findall_counts_unit_tokens; [reflexivity | discriminate].
Qed.

Lemma relative_count (css : string) :
  List.length (findall relative_re css) = count_unit_tokens relative_unit_names css.
Proof.
  change relative_re with (unit_re relative_unit_names).
  apply findall_counts_unit_tokens; [reflexivity | discriminate].
Qed.

(** C3. For a readable stylesheet, [fixed_units] is the number of [px]
    tokens (the unit directly after a digit) and [responsive_units] the
    number of em, rem, %, vh and vw tokens; both are stored whatever their
    order, and among the recommendations the call adds, the one about
    relative units occurs once when there are more pixel tokens than
    relative ones and not at all otherwise.  The text [10px 20px 1em] has 2
    and 1. *)
Theorem css_unit_metrics (e : env) (file_path : string) (st : results)
  (css_content : string) (size : nat) :
  fs e file_path = Readable css_content size ->
  let st' := snd (analyze_css e file_path st) in
  let fixed := count_unit_tokens fixed_unit_names css_content in
  let responsive := count_unit_tokens relative_unit_names css_content in
  dict_get "fixed_units" (responsive_design st') = Some fixed
  /\ dict_get "responsive_units" (responsive_design st') = Some responsive
  /\ (exists emitted,
        recommendations st' = recommendations st ++ emitted
        /\ count_occ string_dec emitted units_msg
           = if responsive <? fixed then 1 else 0)
  /\ count_unit_tokens fixed_unit_names "10px 20px 1em" = 2
  /\ count_unit_tokens relative_unit_names "10px 20px 1em" = 1.
Proof.
  intros Hfs st' fixed responsive. subst st'.
  unfold analyze_css. rewrite Hfs. cbv zeta.
  rewrite px_count, relative_count. fold fixed responsive.
  cbn [snd set_file_analysis responsive_design recommendations set_responsive].
  split; [|split; [|split; [|split; reflexivity]]].
  - rewrite dict_get_set_other by discriminate. apply dict_get_set_same.
  - apply dict_get_set_same.
  - autorewrite with parts.
    assert (Hm : forall (l : list string) (s : results),
               recommendations
                 match l with
                 | [] => add_issue no_media_msg s
                 | _ :: _ => set_responsive "media_queries" (List.length l) s
                 end = recommendations s) by (intros [|x l] s; reflexivity).
    rewrite Hm, <- !app_assoc.
    eexists; split; [reflexivity|].
    rewrite !count_occ_app.
    destruct (responsive <? fixed);
      match goal with
      | |- context [if ?a then [flex_msg] else []] => destruct a
      end;
      match goal with
      | |- context [if ?a then [prefix_msg] else []] => destruct a
      end;
      match goal with
      | |- context [if ?a then [will_change_msg] else []] => destruct a
      end;
      reflexivity.
Qed.

Lemma css_unit_metrics_witness :
  let st' := snd (analyze_css sample_disk "styles.css" init) in
  dict_get "fixed_units" (responsive_design st') = Some 2
  /\ dict_get "responsive_units" (responsive_design st') = Some 1.
Proof.
  destruct (css_unit_metrics sample_disk "styles.css" init "10px 20px 1em" 13
              eq_refl) as (Hf & Hr & _).
  split; [exact Hf | exact Hr].
Defined.

(* ================================================================== *)
(** ** The script analyzer *)

(** A pattern that matches wherever a literal starts is found by [search]
    in every text that contains the literal. *)
Lemma search_of_contains (ic : bool) (r : regex) (lit s : string) :
  (forall rest, rmatch ic r (lit ++ rest)%string <> []) ->
  contains lit s = true -> search ic r s = true.
Proof.
  intros Hr. induction s as [|c s IH]; intros H.
  - simpl in H. rewrite orb_false_r in H.
    destruct (startswith_split _ _ H) as [rest E].
    specialize (Hr rest). rewrite <- E in Hr. simpl.
    destruct (rmatch ic r ""); congruence.
  - change (contains lit (String c s))
      with (startswith lit (String c s) || contains lit s) in H.
    cbn [search]. destruct (rmatch ic r (String c s)) eqn:Em; [|reflexivity].
    apply orb_true_iff in H as [H|H]; [|now apply IH].
    destruct (startswith_split _ _ H) as [rest E].
    specialize (Hr rest). rewrite <- E in Hr. congruence.
Qed.

Lemma literal_guard_is_a_guard (js : string) :
  contains "if (navigator.mediaDevices" js = true ->
  search false media_devices_guard_re js = true.
Proof.
  apply search_of_contains. intros rest. vm_compute. discriminate.
Qed.

(** C9. For a readable script the stored [has_feature_detection] is the test
    for the literal text [if (navigator.mediaDevices].  Every script with
    that literal also matches the guard pattern of the MediaDevices check,
    but not the other way round: on [if( navigator.mediaDevices] the guard
    pattern matches, so no MediaDevices issue is emitted, and
    [has_feature_detection] is stored as false. *)
Theorem feature_detection_metric_is_literal (e : env) (file_path : string)
  (st : results) (js_content : string) (size : nat) :
  fs e file_path = Readable js_content size ->
  let st' := snd (analyze_js e file_path st) in
  (exists eh af,
      dict_get "js" (file_analysis st')
      = Some (JsMetrics file_path size
                (contains "if (navigator.mediaDevices" js_content) eh af))
  /\ (contains "if (navigator.mediaDevices" js_content = true ->
      search false media_devices_guard_re js_content = true)
  /\ (let js := "if( navigator.mediaDevices" in
      let st2 := snd (analyze_js sample_disk "enhanced_script.js" init) in
      fs sample_disk "enhanced_script.js" = Readable js 26
      /\ contains "navigator.mediaDevices" js = true
      /\ search false media_devices_guard_re js = true
      /\ contains "if (navigator.mediaDevices" js = false
      /\ ~ In media_devices_msg (compatibility_issues st2)
      /\ dict_get "js" (file_analysis st2)
         = Some (JsMetrics "enhanced_script.js" 26 false false false)).
Proof.
  intros Hfs st'. subst st'. split; [|split].
  - unfold analyze_js. rewrite Hfs. cbv zeta.
    cbn [snd set_file_analysis file_analysis].
    do 2 eexists. apply dict_get_set_same.
  - apply literal_guard_is_a_guard.
  - vm_compute. repeat split; try reflexivity.
    intros [H|[]]. discriminate H.
Qed.

Lemma feature_detection_metric_is_literal_witness :
  exists eh af,
    dict_get "js" (file_analysis (snd (analyze_js sample_disk "script.js" init)))
    = Some (JsMetrics "script.js" 43 true eh af).
Proof.
  destruct (feature_detection_metric_is_literal sample_disk "script.js" init
              "if (navigator.mediaDevices.getUserMedia) {}" 43 eq_refl)
    as (H & _).
  exact H.
Defined.




(** The guard test sees text, not statements.  A condition with a closing
    parenthesis before the capability hides the guard, and the
    recommendation is emitted; the letters [if] at the end of a name, before
    a parenthesis that holds the capability, count as a guard, and it is
    not. *)
Lemma detection_guard_is_textual :
  In (detection_msg "getUserMedia")
     (recommendations
        (snd (analyze_js (script_disk "if (ok(x) && navigator.getUserMedia) {}")
                "script.js" init)))
  /\ search false (alts [word "touchstart"; word "touchmove"; word "touchend"])
            "function notif (touchstart) {}" = true
  /\ ~ In (detection_msg "Touch Events")
          (recommendations
             (snd (analyze_js (script_disk "function notif (touchstart) {}")
                     "script.js" init))).
Proof.
  split; [vm_compute; tauto|]. split; [reflexivity|].
  vm_compute. intros [H|[]]. discriminate H.
Qed.

(* ================================================================== *)
(** ** The report builder and the store *)

Module StoreFacts.
Import Store.

Lemma nth_error_new (h : heap) (o : pyobj) :
  nth_error (h ++ [o]) (List.length h) = Some o.
Proof. rewrite nth_error_app2, Nat.sub_diag by lia. reflexivity. Qed.

Lemma replace_at_new (h : heap) (o o' : pyobj) :
  replace_at (List.length h) o' (h ++ [o]) = h ++ [o'].
Proof. induction h as [|x h IH]; simpl; [reflexivity|now rewrite IH]. Qed.

Lemma preserves_refl (h : heap) : preserves h h.
Proof. intros l o H; exact H. Qed.

Lemma preserves_trans (h1 h2 h3 : heap) :
  preserves h1 h2 -> preserves h2 h3 -> preserves h1 h3.
Proof. intros H12 H23 l o H. auto. Qed.

Lemma preserves_app (h t : heap) : preserves h (h ++ t).
Proof.
  intros l o H. rewrite nth_error_app1; [exact H|].
  apply nth_error_Some. congruence.
Qed.

Lemma setitem_new (h : heap) (entries : dict pyval) (k : string) (v : pyval) :
  setitem (h ++ [ODict entries]) (List.length h) k v
  = Some (h ++ [ODict (dict_set k v entries)]).
Proof. unfold setitem. now rewrite nth_error_new, replace_at_new. Qed.

Lemma mapM_mono {A B : Type} (f g : A -> option B) (xs : list A) (ys : list B) :
  (forall x y, f x = Some y -> g x = Some y) ->
  mapM f xs = Some ys -> mapM g xs = Some ys.
Proof.
  intros Hfg. revert ys; induction xs as [|x xs IH]; intros ys H; simpl in *.
  - exact H.
  - destruct (f x) as [y|] eqn:E; [|discriminate]. rewrite (Hfg _ _ E).
    cbn [bind] in *. destruct (mapM f xs) as [zs|]; [|discriminate].
    now rewrite (IH zs eq_refl).
Qed.

Lemma mapM_length {A B : Type} (f : A -> option B) (xs : list A) (ys : list B) :
  mapM f xs = Some ys -> List.length ys = List.length xs.
Proof.
  revert ys; induction xs as [|x xs IH]; intros ys H; simpl in *.
  - injection H as <-. reflexivity.
  - destruct (f x) as [y|]; [|discriminate]. cbn [bind] in H.
    destruct (mapM f xs) as [zs|]; [|discriminate]. cbn [bind] in H.
    injection H as <-. simpl. now rewrite (IH zs eq_refl).
Qed.

Section Preserved.

Variables h h' : heap.
Hypothesis ext : preserves h h'.

Lemma load_list_preserved (v : pyval) (items : list pyval) :
  load_list h v = Some items -> load_list h' v = Some items.
Proof.
  destruct v as [| | |l]; try discriminate. unfold load_list.
  destruct (nth_error h l) as [o|] eqn:E; [|discriminate].
  rewrite (ext _ _ E). auto.
Qed.

Lemma load_dict_preserved (v : pyval) (entries : dict pyval) :
  load_dict h v = Some entries -> load_dict h' v = Some entries.
Proof.
  destruct v as [| | |l]; try discriminate. unfold load_dict.
  destruct (nth_error h l) as [o|] eqn:E; [|discriminate].
  rewrite (ext _ _ E). auto.
Qed.

Lemma load_strs_preserved (v : pyval) (xs : list string) :
  load_strs h v = Some xs -> load_strs h' v = Some xs.
Proof.
  unfold load_strs. destruct (load_list h v) as [items|] eqn:E; [|discriminate].
  now rewrite (load_list_preserved _ _ E).
Qed.

Lemma load_counts_preserved (v : pyval) (d : dict nat) :
  load_counts h v = Some d -> load_counts h' v = Some d.
Proof.
  unfold load_counts. destruct (load_dict h v) as [entries|] eqn:E; [|discriminate].
  now rewrite (load_dict_preserved _ _ E).
Qed.

Lemma load_metrics_preserved (v : pyval) (m : metrics) :
  load_metrics h v = Some m -> load_metrics h' v = Some m.
Proof.
  unfold load_metrics. destruct (load_dict h v) as [entries|] eqn:E; [|discriminate].
  now rewrite (load_dict_preserved _ _ E).
Qed.

Lemma load_file_analysis_preserved (v : pyval) (fa : dict metrics) :
  load_file_analysis h v = Some fa -> load_file_analysis h' v = Some fa.
Proof.
  unfold load_file_analysis.
  destruct (load_dict h v) as [entries|] eqn:E; [|discriminate].
  rewrite (load_dict_preserved _ _ E). cbn [bind]. unfold on_values.
  apply mapM_mono. intros [k x] [k' y]. cbn [fst snd].
  destruct (load_metrics h x) as [m|] eqn:Em; [|discriminate].
  now rewrite (load_metrics_preserved _ _ Em).
Qed.

Lemma field_preserved {A : Type} (f g : pyval -> option A) (k : string)
  (d : dict pyval) (a : A) :
  (forall v x, f v = Some x -> g v = Some x) ->
  field k f d = Some a -> field k g d = Some a.
Proof.
  intros Hfg. unfold field. destruct (dict_get k d) as [v|]; [|discriminate].
  cbn [bind]. apply Hfg.
Qed.

Lemma load_results_preserved (res : loc) (st : results) :
  load_results h res = Some st -> load_results h' res = Some st.
Proof.
  unfold load_results.
  destruct (load_dict h (VRef res)) as [d|] eqn:E; [|discriminate].
  rewrite (load_dict_preserved _ _ E). cbn [bind].
  destruct (field "file_analysis" (load_file_analysis h) d) as [fa|] eqn:E1;
    [|discriminate].
  rewrite (field_preserved _ _ _ _ _ load_file_analysis_preserved E1).
  destruct (field "compatibility_issues" (load_strs h) d) as [ci|] eqn:E2;
    [|discriminate].
  rewrite (field_preserved _ _ _ _ _ load_strs_preserved E2).
  destruct (field "responsive_design" (load_counts h) d) as [rd|] eqn:E3;
    [|discriminate].
  rewrite (field_preserved _ _ _ _ _ load_counts_preserved E3).
  destruct (field "performance_concerns" (load_strs h) d) as [pc|] eqn:E4;
    [|discriminate].
  rewrite (field_preserved _ _ _ _ _ load_strs_preserved E4).
  destruct (field "recommendations" (load_strs h) d) as [recs|] eqn:E5;
    [|discriminate].
  rewrite (field_preserved _ _ _ _ _ load_strs_preserved E5).
  auto.
Qed.

Lemma load_report_preserved (r : loc) (rep : report) :
  load_report h r = Some rep -> load_report h' r = Some rep.
Proof.
  unfold load_report.
  destruct (load_dict h (VRef r)) as [d|] eqn:E; [|discriminate].
  rewrite (load_dict_preserved _ _ E). cbn [bind].
  assert (load_summary_preserved :
           forall v x, load_summary h v = Some x -> load_summary h' v = Some x).
  { intros v x. unfold load_summary.
    destruct (load_dict h v) as [ds|] eqn:Es; [|discriminate].
    now rewrite (load_dict_preserved _ _ Es). }
  destruct (field "summary" (load_summary h) d) as [s|] eqn:E0; [|discriminate].
  rewrite (field_preserved _ _ _ _ _ load_summary_preserved E0).
  destruct (field "compatibility_issues" (load_strs h) d) as [ci|] eqn:E2;
    [|discriminate].
  rewrite (field_preserved _ _ _ _ _ load_strs_preserved E2).
  destruct (field "responsive_design" (load_counts h) d) as [rd|] eqn:E3;
    [|discriminate].
  rewrite (field_preserved _ _ _ _ _ load_counts_preserved E3).
  destruct (field "performance_concerns" (load_strs h) d) as [pc|] eqn:E4;
    [|discriminate].
  rewrite (field_preserved _ _ _ _ _ load_strs_preserved E4).
  destruct (field "recommendations" (load_strs h) d) as [recs|] eqn:E5;
    [|discriminate].
  rewrite (field_preserved _ _ _ _ _ load_strs_preserved E5).
  destruct (field "file_analysis" (load_file_analysis h) d) as [fa|] eqn:E1;
    [|discriminate].
  rewrite (field_preserved _ _ _ _ _ load_file_analysis_preserved E1).
  auto.
Qed.

Lemma py_len_preserved (v : pyval) (n : nat) :
  py_len h v = Some n -> py_len h' v = Some n.
Proof.
  destruct v as [| | |l]; try discriminate. unfold py_len.
  destruct (nth_error h l) as [o|] eqn:E; [|discriminate].
  rewrite (ext _ _ E). auto.
Qed.

Lemma getitem_preserved (l : loc) (k : string) (v : pyval) :
  getitem h l k = Some v -> getitem h' l k = Some v.
Proof.
  unfold getitem. destruct (nth_error h l) as [o|] eqn:E; [|discriminate].
  rewrite (ext _ _ E). auto.
Qed.

End Preserved.

Lemma py_len_strs (h : heap) (v : pyval) (xs : list string) :
  load_strs h v = Some xs -> py_len h v = Some (List.length xs).
Proof.
  destruct v as [| | |l]; try discriminate. unfold load_strs, load_list, py_len.
  destruct (nth_error h l) as [[items|entries]|]; try discriminate.
  cbn [bind]. intros H. now rewrite (mapM_length _ _ _ H).
Qed.

Lemma py_len_file_analysis (h : heap) (v : pyval) (fa : dict metrics) :
  load_file_analysis h v = Some fa -> py_len h v = Some (List.length fa).
Proof.
  destruct v as [| | |l]; try discriminate.
  unfold load_file_analysis, load_dict, py_len, on_values.
  destruct (nth_error h l) as [[items|entries]|]; try discriminate.
  cbn [bind]. intros H. now rewrite (mapM_length _ _ _ H).
Qed.

End StoreFacts.

Import Store StoreFacts.

(** One call of the builder on a store that holds the state [st]: it
    succeeds, keeps every object of the store, and the report it creates
    reads as the report of [st]. *)
Lemma report_on_store (h : heap) (res : loc) (st : results) :
  load_results h res = Some st ->
  exists r h',
    generate_compatibility_report_on res h = Some (r, h')
    /\ preserves h h'
    /\ load_report h' r = Some (generate_compatibility_report st).
Proof.
  unfold load_results, field. intros H.
  destruct (load_dict h (VRef res)) as [d|] eqn:Ed; [|discriminate].
  cbn [bind] in H.
  destruct (dict_get "file_analysis" d) as [vfa|] eqn:Kfa; [|discriminate].
  cbn [bind] in H.
  destruct (load_file_analysis h vfa) as [fa|] eqn:Lfa; [|discriminate].
  cbn [bind] in H.
  destruct (dict_get "compatibility_issues" d) as [vci|] eqn:Kci; [|discriminate].
  cbn [bind] in H.
  destruct (load_strs h vci) as [ci|] eqn:Lci; [|discriminate].
  cbn [bind] in H.
  destruct (dict_get "responsive_design" d) as [vrd|] eqn:Krd; [|discriminate].
  cbn [bind] in H.
  destruct (load_counts h vrd) as [rd|] eqn:Lrd; [|discriminate].
  cbn [bind] in H.
  destruct (dict_get "performance_concerns" d) as [vpc|] eqn:Kpc; [|discriminate].
  cbn [bind] in H.
  destruct (load_strs h vpc) as [pc|] eqn:Lpc; [|discriminate].
  cbn [bind] in H.
  destruct (dict_get "recommendations" d) as [vrecs|] eqn:Krecs; [|discriminate].
  cbn [bind] in H.
  destruct (load_strs h vrecs) as [recs|] eqn:Lrecs; [|discriminate].
  cbn [bind] in H. injection H as <-.
  assert (Hres : nth_error h res = Some (ODict d)).
  { unfold load_dict in Ed. destruct (nth_error h res) as [[|]|]; congruence. }
  assert (G : forall t k, getitem (h ++ t) res k = dict_get k d).
  { intros t k. unfold getitem. now rewrite (preserves_app h t _ _ Hres). }
  pose proof (G [] ) as G0. rewrite app_nil_r in G0.
  unfold generate_compatibility_report_on, alloc.
  rewrite !G0, Kfa, Kci, Krecs. cbn [bind].
  rewrite (py_len_file_analysis _ _ _ Lfa), (py_len_strs _ _ _ Lci),
    (py_len_strs _ _ _ Lrecs). cbn [bind].
  rewrite !G, Kci, Krd, Kpc, Krecs, Kfa. cbn [bind].
  rewrite <- app_assoc, G, Kci. cbn [bind].
  rewrite (py_len_preserved _ _ (preserves_app h _) _ _ (py_len_strs _ _ _ Lci)).
  cbn [bind]. rewrite app_assoc, length_app. cbn [List.length].
  replace (List.length h + 1) with (List.length (h ++ [ODict
     [("files_analyzed", VInt (List.length fa));
      ("issues_found", VInt (List.length ci));
      ("recommendations", VInt (List.length recs))]]))
    by (rewrite length_app; reflexivity).
  rewrite setitem_new. cbn [bind].
  eexists. eexists. split; [reflexivity|].
  match goal with
  | |- preserves h ((h ++ [?s]) ++ [?o]) /\ _ =>
      pose proof (nth_error_new (h ++ [s]) o) as N;
      pose proof (preserves_app (h ++ [s]) [o] _ _ (nth_error_new h s)) as N2;
      assert (P : preserves h ((h ++ [s]) ++ [o]))
        by (rewrite <- app_assoc; apply preserves_app);
      set (h3 := (h ++ [s]) ++ [o]) in *
  end.
  split; [exact P|].
  unfold load_report, load_dict. rewrite N. cbn [bind].
  unfold field. cbn [dict_set dict_get String.eqb Ascii.eqb Bool.eqb bind].
  unfold load_summary, load_dict. rewrite N2. cbn [bind].
  unfold field. cbn [dict_get String.eqb Ascii.eqb Bool.eqb bind as_nat as_str].
  rewrite (load_strs_preserved _ _ P _ _ Lci),
    (load_counts_preserved _ _ P _ _ Lrd),
    (load_strs_preserved _ _ P _ _ Lpc),
    (load_strs_preserved _ _ P _ _ Lrecs),
    (load_file_analysis_preserved _ _ P _ _ Lfa).
  reflexivity.
Qed.

(** C10. Building the report changes no object of the store (so every
    list of findings and every metrics entry of the state is as before and
    the state still reads as [st]); the report reads as the report of [st];
    and a second call returns a report that reads the same, the first one
    being unchanged too. *)
Theorem report_leaves_state_unchanged (h : heap) (res : loc) (st : results) :
  load_results h res = Some st ->
  exists r h',
    generate_compatibility_report_on res h = Some (r, h')
    /\ preserves h h'
    /\ load_results h' res = Some st
    /\ load_report h' r = Some (generate_compatibility_report st)
    /\ exists r2 h2,
         generate_compatibility_report_on res h' = Some (r2, h2)
         /\ preserves h' h2
         /\ load_results h2 res = Some st
         /\ load_report h2 r2 = Some (generate_compatibility_report st)
         /\ load_report h2 r = Some (generate_compatibility_report st).
Proof.
  intros H.
  destruct (report_on_store h res st H) as (r & h' & Hgen & Hp & Hrep).
  pose proof (load_results_preserved _ _ Hp _ _ H) as H'.
  destruct (report_on_store h' res st H') as (r2 & h2 & Hgen2 & Hp2 & Hrep2).
  exists r, h'. repeat split; try assumption.
  exists r2, h2. repeat split; try assumption.
  - exact (load_results_preserved _ _ Hp2 _ _ H').
  - exact (load_report_preserved _ _ Hp2 _ _ Hrep).
Qed.

Lemma report_leaves_state_unchanged_witness :
  exists r h',
    generate_compatibility_report_on 6 sample_heap = Some (r, h')
    /\ preserves sample_heap h'
    /\ load_results h' 6 = Some sample_results
    /\ load_report h' r = Some (generate_compatibility_report sample_results)
    /\ exists r2 h2,
         generate_compatibility_report_on 6 h' = Some (r2, h2)
         /\ preserves h' h2
         /\ load_results h2 6 = Some sample_results
         /\ load_report h2 r2 = Some (generate_compatibility_report sample_results)
         /\ load_report h2 r = Some (generate_compatibility_report sample_results).
Proof.
  exact (report_leaves_state_unchanged sample_heap 6 sample_results eq_refl).
Defined.

(* ================================================================== *)
(** * Further properties of the engine *)

(** ** What a call adds to the three lists of findings *)

Lemma when_concerns (b : bool) (m : string) (st : results) :
  performance_concerns (when b (add_concern m) st)
  = performance_concerns st ++ (if b then [m] else []).
Proof. destruct b; simpl; [reflexivity|now rewrite app_nil_r]. Qed.

Lemma when_issue_pc (b : bool) (m : string) (st : results) :
  performance_concerns (when b (add_issue m) st) = performance_concerns st.
Proof. now destruct b. Qed.

Lemma when_rec_pc (b : bool) (m : string) (st : results) :
  performance_concerns (when b (add_recommendation m) st) = performance_concerns st.
Proof. now destruct b. Qed.

Lemma when_issue_rd (b : bool) (m : string) (st : results) :
  responsive_design (when b (add_issue m) st) = responsive_design st.
Proof. now destruct b. Qed.

Lemma when_concern_rd (b : bool) (m : string) (st : results) :
  responsive_design (when b (add_concern m) st) = responsive_design st.
Proof. now destruct b. Qed.

#[export] Hint Rewrite when_concerns when_issue_pc when_rec_pc when_issue_rd
  when_concern_rd : parts.

Lemma fold_check_pattern_pc (c : string) (ps : list (string * list regex)) (st : results) :
  performance_concerns (fold_left (check_pattern c) ps st) = performance_concerns st.
Proof.
  revert st; induction ps as [|p ps IH]; intros st; simpl; [reflexivity|].
  rewrite IH. unfold check_pattern. now autorewrite with parts.
Qed.

Lemma fold_check_pattern_rd (c : string) (ps : list (string * list regex)) (st : results) :
  responsive_design (fold_left (check_pattern c) ps st) = responsive_design st.
Proof.
  revert st; induction ps as [|p ps IH]; intros st; simpl; [reflexivity|].
  rewrite IH. unfold check_pattern. now autorewrite with parts.
Qed.

(** The state after the media-query step of [analyze_css]. *)
Lemma media_step_parts (l : list string) (st : results) :
  let st' := match l with
             | [] => add_issue no_media_msg st
             | _ :: _ => set_responsive "media_queries" (List.length l) st
             end in
  compatibility_issues st'
  = compatibility_issues st ++ match l with [] => [no_media_msg] | _ :: _ => [] end
  /\ performance_concerns st' = performance_concerns st
  /\ recommendations st' = recommendations st
  /\ file_analysis st' = file_analysis st.
Proof. destruct l; cbn; rewrite ?app_nil_r; auto. Qed.

Lemma analyze_emits (e : env) (k : kind) (p : string) (st : results) :
  compatibility_issues (snd (analyze e k p st))
  = compatibility_issues st ++ emitted_issues e k p
  /\ performance_concerns (snd (analyze e k p st))
     = performance_concerns st ++ emitted_concerns e k p
  /\ recommendations (snd (analyze e k p st))
     = recommendations st ++ emitted_recs e k p.
Proof.
  unfold emitted_issues, emitted_concerns, emitted_recs.
  destruct k; unfold analyze, analyze_html, analyze_css, analyze_js;
    destruct (fs e p) as [|err|c size];
    try (cbn; rewrite !app_nil_r; repeat split; reflexivity); cbv zeta.
  - cbn [snd set_file_analysis compatibility_issues performance_concerns
           recommendations].
    autorewrite with parts. unfold html_issues, html_recs.
    rewrite <- !app_assoc, app_nil_r. repeat split; reflexivity.
  - cbn [snd set_file_analysis set_responsive compatibility_issues
           performance_concerns recommendations].
    autorewrite with parts.
    destruct (media_step_parts (findall media_re c) st) as (Hi & Hc & Hr & _).
    cbv zeta in Hi, Hc, Hr. rewrite Hi, Hc, Hr.
    unfold css_issues, css_recs.
    rewrite <- !app_assoc, app_nil_r. repeat split; reflexivity.
  - cbn [snd set_file_analysis compatibility_issues performance_concerns
           recommendations].
    autorewrite with parts.
    rewrite fold_check_pattern_issues, fold_check_pattern_pc,
      fold_check_pattern_recs.
    autorewrite with parts. unfold js_issues, js_concerns, js_recs.
    rewrite <- !app_assoc. repeat split; reflexivity.
Qed.

Lemma run_calls_emits (e : env) (calls : list (kind * string)) (st : results) :
  compatibility_issues (run_calls e calls st)
  = compatibility_issues st
    ++ flat_map (fun c => emitted_issues e (fst c) (snd c)) calls
  /\ performance_concerns (run_calls e calls st)
     = performance_concerns st
       ++ flat_map (fun c => emitted_concerns e (fst c) (snd c)) calls
  /\ recommendations (run_calls e calls st)
     = recommendations st
       ++ flat_map (fun c => emitted_recs e (fst c) (snd c)) calls.
Proof.
  revert st; induction calls as [|[k p] calls IH]; intros st.
  - cbn. rewrite !app_nil_r. auto.
  - cbn [run_calls fold_left flat_map fst snd].
    destruct (IH (snd (analyze e k p st))) as (Hi & Hc & Hr).
    destruct (analyze_emits e k p st) as (Ei & Ec & Er).
    unfold run_calls in Hi, Hc, Hr. rewrite Hi, Hc, Hr, Ei, Ec, Er.
    rewrite <- !app_assoc. auto.
Qed.

Lemma analyze_all_is_run_calls (e : env) (st : results) :
  analyze_all e st = run_calls e full_run_calls st.
Proof. reflexivity. Qed.

(** X1. Whatever the calls and the files, analysis only ever appends to the
    three lists of findings, and what a sequence of calls appends does not
    depend on the state it starts from. *)
Theorem findings_are_appended_whatever_the_state (e : env)
  (calls : list (kind * string)) :
  exists added_issues added_concerns added_recs,
    forall st,
      compatibility_issues (run_calls e calls st)
      = compatibility_issues st ++ added_issues
      /\ performance_concerns (run_calls e calls st)
         = performance_concerns st ++ added_concerns
      /\ recommendations (run_calls e calls st)
         = recommendations st ++ added_recs.
Proof.
  do 3 eexists. intros st. apply run_calls_emits.
Qed.

(** X2. A second full run on the same validator repeats every finding of
    the first: the three lists are doubled, and so are the counts of the
    summary. *)
Theorem second_full_run_repeats_findings (e : env) :
  let st1 := analyze_all e init in
  let st2 := analyze_all e st1 in
  compatibility_issues st2 = compatibility_issues st1 ++ compatibility_issues st1
  /\ performance_concerns st2 = performance_concerns st1 ++ performance_concerns st1
  /\ recommendations st2 = recommendations st1 ++ recommendations st1
  /\ issues_found (summary (generate_compatibility_report st2))
     = 2 * issues_found (summary (generate_compatibility_report st1))
  /\ recommendations_count (summary (generate_compatibility_report st2))
     = 2 * recommendations_count (summary (generate_compatibility_report st1)).
Proof.
  intros st1 st2. subst st2 st1. rewrite !analyze_all_is_run_calls.
  destruct (run_calls_emits e full_run_calls init) as (Hi & Hc & Hr).
  destruct (run_calls_emits e full_run_calls (run_calls e full_run_calls init))
    as (Hi2 & Hc2 & Hr2).
  cbn [init compatibility_issues performance_concerns recommendations app]
    in Hi, Hc, Hr.
  rewrite <- Hi in Hi2. rewrite <- Hc in Hc2. rewrite <- Hr in Hr2.
  repeat split; try assumption.
  - cbn [generate_compatibility_report summary issues_found].
    rewrite Hi2, length_app. lia.
  - cbn [generate_compatibility_report summary recommendations_count].
    rewrite Hr2, length_app. lia.
Qed.

(** ** Return value and failures *)

(** X3. The stylesheet and script analyzers, and the markup analyzer when
    the optional parser is not installed, return [True] exactly when the
    file could be read.  When they do, the metrics stored under the kind's
    key name that file.  When they do not, exactly one issue is appended and
    nothing else changes; for a file that exists but cannot be opened or
    decoded the issue is the analyzer's error prefix followed by the text of
    the exception. *)
Theorem analyze_returns_whether_read (e : env) (k : kind) (file_path : string)
  (st : results) :
  (k = Html -> BS4_AVAILABLE e = false) ->
  let r := analyze e k file_path st in
  fst r = is_readable (fs e file_path)
  /\ (fst r = true ->
      exists m, dict_get (kind_key k) (file_analysis (snd r)) = Some m
                /\ metrics_file m = file_path)
  /\ (fst r = false ->
      List.length (compatibility_issues (snd r))
      = S (List.length (compatibility_issues st))
      /\ file_analysis (snd r) = file_analysis st
      /\ responsive_design (snd r) = responsive_design st
      /\ performance_concerns (snd r) = performance_concerns st
      /\ recommendations (snd r) = recommendations st)
  /\ (forall err, fs e file_path = Unreadable err ->
      compatibility_issues (snd r)
      = compatibility_issues st ++ [(error_prefix k ++ err)%string]).
Proof.
  intros _ r.
  assert (Hfst : fst r = is_readable (fs e file_path)).
  { subst r. destruct k; unfold analyze, analyze_html, analyze_css, analyze_js;
      destruct (fs e file_path); reflexivity. }
  split; [exact Hfst|]. split; [|split].
  - intros Ht. rewrite Hfst in Ht.
    pose proof (analyze_file_analysis e k file_path st) as H.
    destruct (fs e file_path); try discriminate Ht.
    destruct H as (m & Hm & E). exists m. subst r. rewrite E.
    split; [apply dict_get_set_same | exact Hm].
  - intros Hf. rewrite Hfst in Hf. subst r.
    destruct k; unfold analyze, analyze_html, analyze_css, analyze_js;
      destruct (fs e file_path); try discriminate Hf;
      cbn; rewrite length_app; cbn; repeat split; lia.
  - intros err Herr. subst r.
    destruct k; unfold analyze, analyze_html, analyze_css, analyze_js;
      rewrite Herr; reflexivity.
Qed.

Lemma analyze_returns_whether_read_witness :
  compatibility_issues (snd (analyze undecodable_disk Html "index.html" init))
  = ["Error analyzing HTML: 'utf-8' codec can't decode byte 0xff in position 0: invalid start byte"].
Proof.
  destruct (analyze_returns_whether_read undecodable_disk Html "index.html" init
              (fun _ => eq_refl))
    as (_ & _ & _ & H).
  exact (H _ eq_refl).
Defined.

(** ** How many findings a run can add *)

Lemma length_opt (b : bool) (m : string) :
  List.length (if b then [m] else []) <= 1.
Proof. destruct b; simpl; lia. Qed.

Lemma pattern_recs_length (c : string) (ps : list (string * list regex)) :
  List.length (pattern_recs c ps) <= List.length ps.
Proof.
  induction ps as [|p ps IH]; [simpl; lia|].
  unfold pattern_recs in *. cbn [flat_map]. rewrite length_app. simpl List.length.
  pose proof (length_opt (search false (alts (snd p)) c
                          && negb (search false (detection_re (snd p)) c))
                         (detection_msg (fst p))).
  lia.
Qed.

Lemma emitted_bounds (e : env) (k : kind) (p : string) :
  (if is_readable (fs e p) then 0 else 1) <= List.length (emitted_issues e k p)
  /\ List.length (emitted_issues e k p) <= issue_cap k
  /\ List.length (emitted_concerns e k p) <= concern_cap k
  /\ List.length (emitted_recs e k p) <= rec_cap k.
Proof.
  unfold emitted_issues, emitted_concerns, emitted_recs.
  destruct (fs e p) as [|err|c n]; cbn [is_readable].
  - destruct k; cbn; lia.
  - destruct k; cbn; lia.
  - destruct k; cbn [issue_cap rec_cap concern_cap].
    + unfold html_issues, html_recs. rewrite !length_app.
      repeat match goal with
             | |- context [List.length (if ?b then [?m] else [])] =>
                 let H := fresh in
                 pose proof (length_opt b m) as H;
                 generalize dependent (List.length (if b then [m] else []));
                 intros
             end.
      cbn; lia.
    + unfold css_issues, css_recs. rewrite !length_app.
      destruct (findall media_re c);
      repeat match goal with
             | |- context [List.length (if ?b then [?m] else [])] =>
                 let H := fresh in
                 pose proof (length_opt b m) as H;
                 generalize dependent (List.length (if b then [m] else []));
                 intros
             end;
      cbn; lia.
    + unfold js_issues, js_concerns, js_recs. rewrite !length_app.
      pose proof (pattern_recs_length c compatibility_patterns) as Hp.
      cbn [compatibility_patterns List.length] in Hp.
      generalize dependent (List.length (pattern_recs c compatibility_patterns)).
      intros.
      repeat match goal with
             | |- context [List.length (if ?b then [?m] else [])] =>
                 let H := fresh in
                 pose proof (length_opt b m) as H;
                 generalize dependent (List.length (if b then [m] else []));
                 intros
             end.
      cbn; lia.
Qed.

Lemma run_calls_bounds (e : env) (calls : list (kind * string)) :
  List.length (filter (fun p => negb (is_readable (fs e p))) (map snd calls))
  <= List.length (flat_map (fun c => emitted_issues e (fst c) (snd c)) calls)
  /\ List.length (flat_map (fun c => emitted_issues e (fst c) (snd c)) calls)
     <= list_sum (map (fun c => issue_cap (fst c)) calls)
  /\ List.length (flat_map (fun c => emitted_concerns e (fst c) (snd c)) calls)
     <= list_sum (map (fun c => concern_cap (fst c)) calls)
  /\ List.length (flat_map (fun c => emitted_recs e (fst c) (snd c)) calls)
     <= list_sum (map (fun c => rec_cap (fst c)) calls).
Proof.
  induction calls as [|[k p] calls IH]; [cbn; lia|].
  unfold list_sum in *.
  cbn [map filter flat_map fold_right fst snd List.length] in *.
  rewrite !length_app.
  destruct (emitted_bounds e k p) as (H1 & H2 & H3 & H4).
  destruct IH as (I1 & I2 & I3 & I4).
  destruct (is_readable (fs e p)); cbn [negb List.length] in *; lia.
Qed.

Lemma html_recs_without_parser (e : env) (p : string) :
  BS4_AVAILABLE e = false -> List.length (emitted_recs e Html p) <= 1.
Proof.
  intros Hbs. unfold emitted_recs. destruct (fs e p) as [|err|c n]; cbn; try lia.
  unfold html_recs. rewrite Hbs. cbn [andb app]. rewrite app_nil_r.
  apply length_opt.
Qed.

(** X4. When the optional parser is not installed, one full run adds at
    most 14 compatibility issues, 2 performance concerns and 20
    recommendations to the validator, whatever the files. *)
Theorem full_run_adds_bounded_findings (e : env) (st : results) :
  BS4_AVAILABLE e = false ->
  let st' := analyze_all e st in
  List.length (compatibility_issues st')
  <= List.length (compatibility_issues st) + 14
  /\ List.length (performance_concerns st')
     <= List.length (performance_concerns st) + 2
  /\ List.length (recommendations st')
     <= List.length (recommendations st) + 20.
Proof.
  intros Hbs st'. subst st'. rewrite analyze_all_is_run_calls.
  destruct (run_calls_emits e full_run_calls st) as (Hi & Hc & Hr).
  destruct (run_calls_bounds e full_run_calls) as (_ & Bi & Bc & _).
  rewrite Hi, Hc, Hr, !length_app.
  change (list_sum (map (fun c => issue_cap (fst c)) full_run_calls))
    with 14 in Bi.
  change (list_sum (map (fun c => concern_cap (fst c)) full_run_calls))
    with 2 in Bc.
  split; [lia|]. split; [lia|].
  cbn [full_run_calls flat_map fst snd]. rewrite !length_app.
  pose proof (html_recs_without_parser e "index.html" Hbs).
  pose proof (html_recs_without_parser e "enhanced_index.html" Hbs).
  destruct (emitted_bounds e Css "styles.css") as (_ & _ & _ & ?).
  destruct (emitted_bounds e Css "enhanced_styles.css") as (_ & _ & _ & ?).
  destruct (emitted_bounds e Js "script.js") as (_ & _ & _ & ?).
  destruct (emitted_bounds e Js "enhanced_script.js") as (_ & _ & _ & ?).
  cbn [rec_cap List.length] in *. lia.
Qed.

Lemma full_run_adds_bounded_findings_witness :
  List.length (compatibility_issues (analyze_all sample_disk init)) <= 0 + 14.
Proof.
  destruct (full_run_adds_bounded_findings sample_disk init eq_refl) as (H & _).
  exact H.
Defined.

Lemma filter_none {A : Type} (f : A -> bool) (l : list A) :
  List.length (filter f l) = 0 -> forall x, In x l -> f x = false.
Proof.
  induction l as [|a l IH]; intros H x Hx; [destruct Hx|].
  cbn [filter] in H. destruct (f a) eqn:E; [discriminate H|].
  destruct Hx as [<-|Hx]; auto.
Qed.

Lemma tier_excellent_only_at_zero (n : nat) :
  tier_of (assessment n) = "Excellent" -> n = 0.
Proof.
  do 6 (destruct n as [|n]; [first [reflexivity | discriminate]|]).
  discriminate.
Qed.

(** X5. The six analyzer calls of a full run add at least one
    compatibility issue for each of the six artifacts that could not be
    read.  So the report built from a fresh validator after these calls can
    be Excellent only when all six artifacts were read, and it is Poor when
    none of them was.  (Whether [save_report] can then write that report is
    not part of the statement.) *)
Theorem unreadable_artifacts_cost_issues (e : env) (st : results) :
  List.length (compatibility_issues st) + unreadable_artifacts e
  <= List.length (compatibility_issues (analyze_all e st))
  /\ (tier_of (overall_assessment
                 (generate_compatibility_report (analyze_all e init)))
      = "Excellent" ->
      forall p, In p artifacts -> is_readable (fs e p) = true)
  /\ (unreadable_artifacts e = 6 ->
      tier_of (overall_assessment
                 (generate_compatibility_report (analyze_all e init)))
      = "Poor").
Proof.
  assert (Hlow : forall s,
             List.length (compatibility_issues s) + unreadable_artifacts e
             <= List.length (compatibility_issues (analyze_all e s))).
  { intros s. rewrite analyze_all_is_run_calls.
    destruct (run_calls_emits e full_run_calls s) as (Hi & _).
    destruct (run_calls_bounds e full_run_calls) as (B & _).
    rewrite Hi, length_app. unfold unreadable_artifacts.
    change artifacts with (map snd full_run_calls). lia. }
  split; [apply Hlow|]. split.
  - intros Ht p Hp.
    cbn [generate_compatibility_report overall_assessment] in Ht.
    apply tier_excellent_only_at_zero in Ht.
    specialize (Hlow init). cbn [init compatibility_issues List.length] in Hlow.
    assert (H0 : unreadable_artifacts e = 0) by lia.
    apply (filter_none _ _ H0) in Hp. now apply negb_false_iff in Hp.
  - intros H6.
    cbn [generate_compatibility_report overall_assessment].
    specialize (Hlow init). cbn [init compatibility_issues List.length] in Hlow.
    destruct (run_calls_bounds e full_run_calls) as (_ & Bi & _).
    remember (List.length (compatibility_issues (analyze_all e init))) as n.
    do 6 (destruct n as [|n]; [lia|]). reflexivity.
Qed.

Lemma unreadable_artifacts_cost_issues_witness :
  tier_of (overall_assessment
             (generate_compatibility_report (analyze_all empty_disk init)))
  = "Poor".
Proof.
  destruct (unreadable_artifacts_cost_issues empty_disk init) as (_ & _ & H).
  exact (H eq_refl).
Defined.

(** ** The stylesheet metrics *)

(** X6. For a readable stylesheet with [n] media queries the stylesheet
    entry of [file_analysis] records [n].  [responsive_design] records [n]
    under [media_queries] only when [n] is not 0: a stylesheet without
    media queries leaves there whatever an earlier stylesheet stored. *)
Theorem media_queries_metric_kept_when_none (e : env) (file_path : string)
  (st : results) (css_content : string) (size : nat) :
  fs e file_path = Readable css_content size ->
  let st' := snd (analyze_css e file_path st) in
  let n := List.length (findall media_re css_content) in
  (exists ratio,
      dict_get "css" (file_analysis st') = Some (CssMetrics file_path size n ratio))
  /\ dict_get "media_queries" (responsive_design st')
     = if n =? 0 then dict_get "media_queries" (responsive_design st) else Some n.
Proof.
  intros Hfs st' n. subst st' n. unfold analyze_css. rewrite Hfs. cbv zeta.
  cbn [snd set_file_analysis set_responsive file_analysis responsive_design].
  split; [eexists; apply dict_get_set_same|].
  rewrite !dict_get_set_other by discriminate.
  autorewrite with parts.
  destruct (findall media_re css_content) as [|m l]; cbn; [reflexivity|].
  apply dict_get_set_same.
Qed.

Lemma media_queries_metric_kept_when_none_witness :
  dict_get "media_queries"
    (responsive_design
       (snd (analyze_css sample_disk "styles.css"
               (set_responsive "media_queries" 3 init))))
  = Some 3.
Proof.
  destruct (media_queries_metric_kept_when_none sample_disk "styles.css"
              (set_responsive "media_queries" 3 init) "10px 20px 1em" 13 eq_refl)
    as (_ & H).
  exact H.
Defined.

Lemma analyze_rd_other_kinds (e : env) (k : kind) (p : string) (st : results) :
  k <> Css -> responsive_design (snd (analyze e k p st)) = responsive_design st.
Proof.
  intros Hk. destruct k; [|congruence|];
    unfold analyze, analyze_html, analyze_js;
    destruct (fs e p); try reflexivity; cbv zeta;
    cbn [snd set_file_analysis responsive_design]; autorewrite with parts;
    rewrite ?fold_check_pattern_rd; autorewrite with parts; reflexivity.
Qed.

Lemma analyze_keeps_units_agree (e : env) (k : kind) (p : string) (st : results) :
  units_agree st -> units_agree (snd (analyze e k p st)).
Proof.
  intros Hinv. destruct k.
  - unfold units_agree.
    rewrite (analyze_rd_other_kinds e Html p st) by discriminate.
    pose proof (analyze_file_analysis e Html p st) as H.
    destruct (fs e p).
    + rewrite H. exact Hinv.
    + rewrite H. exact Hinv.
    + destruct H as (m & _ & ->). cbn [kind_key].
      rewrite dict_get_set_other by discriminate. exact Hinv.
  - unfold analyze, analyze_css. destruct (fs e p) as [|err|c n]; try exact Hinv.
    cbv zeta. unfold units_agree.
    cbn [snd set_file_analysis set_responsive file_analysis responsive_design].
    rewrite dict_get_set_same.
    exists (List.length (findall px_re c)), (List.length (findall relative_re c)).
    split; [|split; [|reflexivity]].
    + rewrite dict_get_set_other by discriminate. apply dict_get_set_same.
    + apply dict_get_set_same.
  - unfold units_agree.
    rewrite (analyze_rd_other_kinds e Js p st) by discriminate.
    pose proof (analyze_file_analysis e Js p st) as H.
    destruct (fs e p).
    + rewrite H. exact Hinv.
    + rewrite H. exact Hinv.
    + destruct H as (m & _ & ->). cbn [kind_key].
      rewrite dict_get_set_other by discriminate. exact Hinv.
Qed.

Lemma run_calls_keeps_units_agree (e : env) (calls : list (kind * string))
  (st : results) :
  units_agree st -> units_agree (run_calls e calls st).
Proof.
  revert st; induction calls as [|[k p] calls IH]; intros st H; [exact H|].
  apply IH. now apply analyze_keeps_units_agree.
Qed.

(** X7. After any sequence of analyzer calls on a fresh validator the
    stylesheet entry of [file_analysis] and the unit counts of
    [responsive_design] go together: either there is no stylesheet entry
    and neither count, or the entry's [fixed_vs_responsive_ratio] is the
    two stored counts written as [fixed:responsive]. *)
Theorem unit_counts_agree_with_ratio (e : env) (calls : list (kind * string)) :
  let st := run_calls e calls init in
  match dict_get "css" (file_analysis st) with
  | Some (CssMetrics _ _ _ ratio) =>
      exists f r,
        dict_get "fixed_units" (responsive_design st) = Some f
        /\ dict_get "responsive_units" (responsive_design st) = Some r
        /\ ratio = (str_of_nat f ++ ":" ++ str_of_nat r)%string
  | Some _ => False
  | None =>
      dict_get "fixed_units" (responsive_design st) = None
      /\ dict_get "responsive_units" (responsive_design st) = None
  end.
Proof.
  intros st. apply (run_calls_keeps_units_agree e calls init). split; reflexivity.
Qed.

(** X8. [visualize_results] returns nothing when the plotting library is
    missing.  Otherwise, after any sequence of analyzer calls on a fresh
    validator: the bars are the lengths of the three lists of findings;
    without a stylesheet entry no pie is asked for; with one, the pie is
    asked for with the two counts of that entry's ratio, and the call ends
    in the [ValueError] of [ax2.pie] exactly when both counts are 0. *)
Theorem chart_follows_the_state (e : env) (calls : list (kind * string)) :
  let st := run_calls e calls init in
  let the_bars := [("Compatibility", List.length (compatibility_issues st));
                   ("Performance", List.length (performance_concerns st));
                   ("Recommendations", List.length (recommendations st))] in
  visualize_results false st = NoPlotting
  /\ match dict_get "css" (file_analysis st) with
     | None => visualize_results true st = ToSavefig (mkChart the_bars None)
     | Some (CssMetrics _ _ _ ratio) =>
         exists f r,
           ratio = (str_of_nat f ++ ":" ++ str_of_nat r)%string
           /\ visualize_results true st
              = if f + r =? 0 then PieRaises
                else ToSavefig (mkChart the_bars (Some (f, r)))
     | Some _ => False
     end.
Proof.
  intros st the_bars. split; [reflexivity|].
  pose proof (run_calls_keeps_units_agree e calls init (conj eq_refl eq_refl)) as H.
  fold st in H. unfold units_agree in H.
  unfold visualize_results. cbn [negb].
  destruct (dict_get "css" (file_analysis st)) as [[| file size mq ratio |]|].
  - destruct H.
  - destruct H as (f & r & -> & -> & ->). exists f, r. split; reflexivity.
  - destruct H.
  - destruct H as [-> _]. reflexivity.
Qed.

Lemma findall_none (r : regex) (lit s : string) :
  (forall t, startswith lit t = false -> rmatch false r t = []) ->
  contains lit s = false -> findall r s = [].
Proof.
  intros Hr. unfold findall. induction s as [|c s IH]; intros H.
  - simpl in H. rewrite orb_false_r in H. cbn [findall_from].
    now rewrite (Hr _ H).
  - change (contains lit (String c s))
      with (startswith lit (String c s) || contains lit s) in H.
    apply orb_false_iff in H as [H1 H2].
    cbn [findall_from]. rewrite (Hr _ H1). now apply IH.
Qed.

Lemma media_re_needs_at_media (t : string) :
  startswith "@media" t = false -> rmatch false media_re t = [].
Proof.
  intros H. unfold media_re, seq. cbn [rmatch].
  now rewrite rmatch_word, H.
Qed.

(** X9. A readable stylesheet in which the text [@media] does not occur has
    no media query: the entry stored for it records 0 media queries and the
    issue about missing media queries is among the issues. *)
Theorem no_at_media_no_media_query (e : env) (file_path : string) (st : results)
  (css_content : string) (size : nat) :
  fs e file_path = Readable css_content size ->
  contains "@media" css_content = false ->
  let st' := snd (analyze_css e file_path st) in
  (exists ratio,
      dict_get "css" (file_analysis st') = Some (CssMetrics file_path size 0 ratio))
  /\ In no_media_msg (compatibility_issues st').
Proof.
  intros Hfs Hno st'. subst st'.
  pose proof (findall_none media_re "@media" css_content
                media_re_needs_at_media Hno) as Hnone.
  split.
  - unfold analyze_css. rewrite Hfs. cbv zeta. rewrite Hnone.
    cbn [snd set_file_analysis file_analysis List.length].
    eexists. apply dict_get_set_same.
  - destruct (analyze_emits e Css file_path st) as (Hi & _).
    cbn [analyze] in Hi. rewrite Hi. unfold emitted_issues, css_issues.
    rewrite Hfs, Hnone. apply in_or_app. right. now left.
Qed.

Lemma no_at_media_no_media_query_witness :
  In no_media_msg
     (compatibility_issues (snd (analyze_css sample_disk "styles.css" init))).
Proof.
  destruct (no_at_media_no_media_query sample_disk "styles.css" init
              "10px 20px 1em" 13 eq_refl eq_refl) as (_ & H).
  exact H.
Defined.

(** ** The doctype check *)

Lemma append_assoc_str (a b c : string) :
  ((a ++ b) ++ c)%string = (a ++ (b ++ c))%string.
Proof. induction a; simpl; congruence. Qed.

Lemma startswith_app (p a b : string) :
  startswith p a = true -> startswith p (a ++ b)%string = true.
Proof.
  intros H. destruct (startswith_split _ _ H) as [r ->].
  rewrite append_assoc_str. apply startswith_refl.
Qed.

Lemma lstrip_split (c : string) :
  exists ws, all_space ws = true /\ c = (ws ++ lstrip c)%string.
Proof.
  induction c as [|a c IH].
  - now exists "".
  - cbn [lstrip]. destruct (is_space a) eqn:E.
    + destruct IH as (ws & Hws & Hc). exists (String a ws). split.
      * unfold all_space in *. cbn. now rewrite E.
      * cbn. now rewrite <- Hc.
    + now exists "".
Qed.

Lemma lstrip_spaces (ws t : string) :
  all_space ws = true -> lstrip (ws ++ t)%string = lstrip t.
Proof.
  unfold all_space. induction ws as [|a ws IH]; intros H; [reflexivity|].
  cbn in H. apply andb_true_iff in H as [Ha Hws].
  cbn [String.append lstrip]. rewrite Ha. now apply IH.
Qed.

Lemma rstrip_is_prefix (t : string) : exists w, t = (rstrip t ++ w)%string.
Proof.
  induction t as [|a t IH].
  - now exists "".
  - cbn [rstrip]. destruct IH as (w & Hw).
    destruct (rstrip t) as [|b t'] eqn:E.
    + destruct (is_space a).
      * now exists (String a t).
      * exists t. reflexivity.
    + exists w. change (String a t = String a (String b t' ++ w)%string).
      f_equal. exact Hw.
Qed.

Lemma rstrip_keeps_non_space (x : string) (a : ascii) (t : string) :
  is_space a = false ->
  exists t', rstrip (x ++ String a t) = (x ++ String a t')%string.
Proof.
  intros Ha. induction x as [|b x IH].
  - cbn [String.append rstrip]. destruct (rstrip t) as [|c t'].
    + rewrite Ha. now exists "".
    + now exists (String c t').
  - destruct IH as (t' & E). exists t'.
    cbn [String.append rstrip]. rewrite E.
    destruct x; reflexivity.
Qed.

Lemma doctype_check_spec (c : string) :
  startswith "<!DOCTYPE html>" (strip c) = true
  <-> exists ws rest,
        all_space ws = true /\ c = (ws ++ "<!DOCTYPE html>" ++ rest)%string.
Proof.
  unfold strip. split.
  - intros H. destruct (rstrip_is_prefix (lstrip c)) as (w & Hw).
    pose proof (startswith_app _ _ w H) as H'. rewrite <- Hw in H'.
    destruct (startswith_split _ _ H') as (rest & Hrest).
    destruct (lstrip_split c) as (ws & Hws & Hc).
    exists ws, rest. split; [exact Hws|]. now rewrite <- Hrest.
  - intros (ws & rest & Hws & ->). rewrite (lstrip_spaces _ _ Hws).
    cbn [String.append lstrip]. change (is_space "<") with false. cbv iota.
    destruct (rstrip_keeps_non_space "<!DOCTYPE html" ">" rest eq_refl) as (t' & E).
    cbn [String.append] in E. rewrite E. reflexivity.
Qed.

(** X10. For a readable markup file the analysis adds no doctype issue
    exactly when the text is some white space, then [<!DOCTYPE html>], then
    anything: white space before the doctype is ignored, and nothing after
    it matters. *)
Theorem doctype_accepted_iff_after_white_space (e : env) (file_path : string)
  (st : results) (html_content : string) (size : nat) :
  fs e file_path = Readable html_content size ->
  (count_occ string_dec
     (compatibility_issues (snd (analyze_html e file_path st))) doctype_msg
   = count_occ string_dec (compatibility_issues st) doctype_msg)
  <-> exists ws rest,
        all_space ws = true
        /\ html_content = (ws ++ "<!DOCTYPE html>" ++ rest)%string.
Proof.
  intros Hfs. rewrite <- doctype_check_spec.
  destruct (analyze_emits e Html file_path st) as (Hi & _).
  cbn [analyze] in Hi. rewrite Hi. unfold emitted_issues. rewrite Hfs.
  rewrite count_occ_app. unfold html_issues. rewrite !count_occ_app.
  destruct (startswith "<!DOCTYPE html>" (strip html_content));
    destruct (search true viewport_re html_content);
    destruct (search true lang_re html_content);
    destruct (contains "<video" html_content
              && negb (contains "playsinline" html_content));
    cbn; split; intros H; solve [reflexivity | lia | discriminate H].
Qed.

Lemma doctype_accepted_iff_after_white_space_witness :
  exists ws rest,
    all_space ws = true /\ good_page = (ws ++ "<!DOCTYPE html>" ++ rest)%string.
Proof.
  apply (doctype_accepted_iff_after_white_space sample_disk "enhanced_index.html"
           init good_page _ eq_refl).
  reflexivity.
Defined.

(** ** The per-file issue count *)




(** ** The script metrics *)

(** X12. The three flags stored for a readable script agree with what the
    same call reports: the try/catch issue is added exactly when
    [has_error_handling] is false; when [has_feature_detection] is true no
    MediaDevices issue is added; when [uses_animation_frame] is true no
    performance concern is added. *)
Theorem script_flags_agree_with_findings (e : env) (file_path : string)
  (st : results) (js_content : string) (size : nat) :
  fs e file_path = Readable js_content size ->
  let st' := snd (analyze_js e file_path st) in
  exists new_issues new_concerns fd eh af,
    compatibility_issues st' = compatibility_issues st ++ new_issues
    /\ performance_concerns st' = performance_concerns st ++ new_concerns
    /\ dict_get "js" (file_analysis st')
       = Some (JsMetrics file_path size fd eh af)
    /\ count_occ string_dec new_issues try_catch_msg = (if eh then 0 else 1)
    /\ (fd = true -> ~ In media_devices_msg new_issues)
    /\ (af = true -> new_concerns = []).
Proof.
  intros Hfs st'. subst st'.
  destruct (analyze_emits e Js file_path st) as (Hi & Hc & _).
  cbn [analyze] in Hi, Hc. unfold emitted_issues in Hi.
  unfold emitted_concerns in Hc. rewrite Hfs in Hi, Hc.
  exists (js_issues js_content), (js_concerns js_content).
  do 3 eexists. split; [exact Hi|]. split; [exact Hc|]. split.
  { unfold analyze_js. rewrite Hfs. cbv zeta.
    cbn [snd set_file_analysis file_analysis]. apply dict_get_set_same. }
  unfold js_issues, js_concerns. split; [|split].
  - rewrite count_occ_app.
    destruct (contains "navigator.mediaDevices" js_content
              && negb (search false media_devices_guard_re js_content));
      destruct (contains "try" js_content);
      destruct (contains "catch" js_content); reflexivity.
  - intros Hfd. rewrite (literal_guard_is_a_guard _ Hfd).
    rewrite andb_false_r. cbn [app negb].
    destruct (negb (contains "try" js_content)
              || negb (contains "catch" js_content)).
    + intros [H|[]]. discriminate H.
    + intros [].
  - intros Haf. rewrite Haf. now rewrite andb_false_r.
Qed.

Lemma script_flags_agree_with_findings_witness :
  exists new_issues new_concerns fd eh af,
    compatibility_issues (snd (analyze_js sample_disk "script.js" init))
    = [] ++ new_issues
    /\ performance_concerns (snd (analyze_js sample_disk "script.js" init))
       = [] ++ new_concerns
    /\ dict_get "js" (file_analysis (snd (analyze_js sample_disk "script.js" init)))
       = Some (JsMetrics "script.js" 43 fd eh af)
    /\ count_occ string_dec new_issues try_catch_msg = (if eh then 0 else 1)
    /\ (fd = true -> ~ In media_devices_msg new_issues)
    /\ (af = true -> new_concerns = []).
Proof.
  exact (script_flags_agree_with_findings sample_disk "script.js" init
           "if (navigator.mediaDevices.getUserMedia) {}" 43 eq_refl).
Defined.

Lemma lower_str_app (a b : string) :
  lower_str (a ++ b) = (lower_str a ++ lower_str b)%string.
Proof. induction a; simpl; congruence. Qed.

Lemma contains_lower (w c : string) :
  contains w c = true -> contains (lower_str w) (lower_str c) = true.
Proof.
  induction c as [|a c IH]; intros H.
  - simpl in H. rewrite orb_false_r in H.
    destruct (startswith_split _ _ H) as (r & E).
    destruct w; [reflexivity | discriminate E].
  - change (contains w (String a c))
      with (startswith w (String a c) || contains w c) in H.
    apply orb_true_iff in H as [H|H].
    + destruct (startswith_split _ _ H) as (r & E). rewrite E, lower_str_app.
      apply contains_here, startswith_refl.
    + cbn [lower_str]. apply contains_later. now apply IH.
Qed.

Lemma startswith_lower_inv (p c : string) :
  startswith p (lower_str c) = true ->
  exists w, lower_str w = p /\ startswith w c = true.
Proof.
  revert c; induction p as [|a p IH]; intros c H.
  - now exists "".
  - destruct c as [|b c]; [discriminate H|]. cbn [lower_str startswith] in H.
    apply andb_true_iff in H as [Hab Hp]. apply Ascii.eqb_eq in Hab.
    destruct (IH _ Hp) as (w & Hw & Hs). exists (String b w). split.
    + cbn. now rewrite Hw, Hab.
    + cbn. now rewrite Ascii.eqb_refl.
Qed.

Lemma contains_lower_inv (p c : string) :
  contains p (lower_str c) = true ->
  exists w, lower_str w = p /\ contains w c = true.
Proof.
  induction c as [|a c IH]; intros H.
  - cbn in H. rewrite orb_false_r in H.
    destruct (startswith_lower_inv p "" H) as (w & Hw & Hs).
    exists w. split; [exact Hw | now apply contains_here].
  - cbn [lower_str] in H.
    change (contains p (String (lower a) (lower_str c)))
      with (startswith p (String (lower a) (lower_str c))
            || contains p (lower_str c)) in H.
    apply orb_true_iff in H as [H|H].
    + destruct (startswith_lower_inv p (String a c) H) as (w & Hw & Hs).
      exists w. split; [exact Hw | now apply contains_here].
    + destruct (IH H) as (w & Hw & Hc).
      exists w. split; [exact Hw | now apply contains_later].
Qed.

(** X13. For a readable script no polyfill recommendation is added exactly
    when the word polyfill occurs in the text in some mix of upper and lower
    case. *)
Theorem polyfill_word_in_any_case (e : env) (file_path : string) (st : results)
  (js_content : string) (size : nat) :
  fs e file_path = Readable js_content size ->
  (count_occ string_dec
     (recommendations (snd (analyze_js e file_path st))) polyfill_msg
   = count_occ string_dec (recommendations st) polyfill_msg)
  <-> exists w, lower_str w = "polyfill" /\ contains w js_content = true.
Proof.
  intros Hfs.
  destruct (analyze_emits e Js file_path st) as (_ & _ & Hr).
  cbn [analyze] in Hr. unfold emitted_recs in Hr. rewrite Hfs in Hr.
  rewrite Hr, count_occ_app. unfold js_recs. rewrite count_occ_app.
  assert (Hp : count_occ string_dec
                 (pattern_recs js_content compatibility_patterns) polyfill_msg = 0).
  { unfold pattern_recs, compatibility_patterns. cbn [flat_map fst snd].
    rewrite !count_occ_app.
    repeat match goal with
           | |- context [if ?a then [detection_msg ?f] else []] => destruct a
           end; reflexivity. }
  rewrite Hp. split.
  - intros H. apply contains_lower_inv.
    destruct (contains "polyfill" (lower_str js_content)); [reflexivity|].
    cbn in H. lia.
  - intros (w & Hw & Hc). apply contains_lower in Hc. rewrite Hw in Hc.
    rewrite Hc. cbn. lia.
Qed.

Lemma polyfill_word_in_any_case_witness :
  ~ exists w, lower_str w = "polyfill"
              /\ contains w "if (navigator.mediaDevices.getUserMedia) {}" = true.
Proof.
  intros H.
  apply (polyfill_word_in_any_case sample_disk "script.js" init _ 43 eq_refl) in H.
  vm_compute in H. discriminate H.
Defined.

(* ================================================================== *)
(** ** The report and later findings *)

Lemma nth_replace_other (h : heap) (l l' : loc) (o : pyobj) :
  l' <> l -> nth_error (replace_at l o h) l' = nth_error h l'.
Proof.
  revert l l'; induction h as [|x h IH]; intros l l' Hne.
  - destruct l; reflexivity.
  - destruct l as [|l]; destruct l' as [|l']; cbn; try reflexivity; try congruence.
    apply IH. congruence.
Qed.

Lemma nth_replace_same (h : heap) (l : loc) (o x : pyobj) :
  nth_error h l = Some x -> nth_error (replace_at l o h) l = Some o.
Proof.
  revert l; induction h as [|y h IH]; intros l H.
  - destruct l; discriminate H.
  - destruct l as [|l]; cbn in *; [reflexivity | now apply IH].
Qed.

Lemma mapM_ext {A B : Type} (f g : A -> option B) (xs : list A) :
  (forall x, f x = g x) -> mapM f xs = mapM g xs.
Proof.
  intros H. induction xs as [|x xs IH]; [reflexivity|].
  cbn [mapM]. now rewrite H, IH.
Qed.

Lemma mapM_snoc {A B : Type} (f : A -> option B) (xs : list A) (x : A)
  (ys : list B) (y : B) :
  mapM f xs = Some ys -> f x = Some y -> mapM f (xs ++ [x]) = Some (ys ++ [y]).
Proof.
  revert ys; induction xs as [|a xs IH]; intros ys H Hx.
  - injection H as <-. cbn. now rewrite Hx.
  - cbn [mapM app] in *. destruct (f a) as [b|]; [|discriminate H].
    cbn [bind] in *. destruct (mapM f xs) as [zs|]; [|discriminate H].
    cbn [bind] in H. injection H as <-.
    rewrite (IH zs eq_refl Hx). reflexivity.
Qed.

Section Grown.

Variables (h : heap) (l : loc) (items : list pyval) (m : string).
Hypothesis at_l : nth_error h l = Some (OList items).

Local Abbreviation h2 := (replace_at l (OList (items ++ [VStr m])) h).

Lemma load_dict_grown (x : pyval) : load_dict h2 x = load_dict h x.
Proof.
  destruct x as [| | |l']; try reflexivity. unfold load_dict.
  destruct (Nat.eq_dec l' l) as [->|Hne].
  - now rewrite (nth_replace_same _ _ _ _ at_l), at_l.
  - now rewrite nth_replace_other.
Qed.

Lemma load_counts_grown (x : pyval) : load_counts h2 x = load_counts h x.
Proof. unfold load_counts. now rewrite load_dict_grown. Qed.

Lemma load_summary_grown (x : pyval) : load_summary h2 x = load_summary h x.
Proof. unfold load_summary. now rewrite load_dict_grown. Qed.

Lemma load_metrics_grown (x : pyval) : load_metrics h2 x = load_metrics h x.
Proof. unfold load_metrics. now rewrite load_dict_grown. Qed.

Lemma load_file_analysis_grown (x : pyval) :
  load_file_analysis h2 x = load_file_analysis h x.
Proof.
  unfold load_file_analysis, on_values. rewrite load_dict_grown.
  destruct (load_dict h x) as [d|]; [|reflexivity]. cbn [bind].
  apply mapM_ext. intros kv. now rewrite load_metrics_grown.
Qed.

Lemma load_strs_grown_other (x : pyval) :
  x <> VRef l -> load_strs h2 x = load_strs h x.
Proof.
  intros Hne. destruct x as [| | |l']; try reflexivity.
  unfold load_strs, load_list. rewrite nth_replace_other; [reflexivity|].
  congruence.
Qed.

Lemma load_strs_grown_same (xs : list string) :
  load_strs h (VRef l) = Some xs -> load_strs h2 (VRef l) = Some (xs ++ [m]).
Proof.
  unfold load_strs, load_list.
  rewrite (nth_replace_same _ _ _ _ at_l), at_l. cbn [bind].
  intros H. now apply mapM_snoc.
Qed.

Lemma field_grown {A : Type} (f : heap -> pyval -> option A) (k : string)
  (d : dict pyval) :
  (forall x, f h2 x = f h x) -> field k (f h2) d = field k (f h) d.
Proof.
  intros H. unfold field. destruct (dict_get k d); [apply H | reflexivity].
Qed.

Lemma field_strs_other (k : string) (d : dict pyval) :
  dict_get k d <> Some (VRef l) ->
  field k (load_strs h2) d = field k (load_strs h) d.
Proof.
  intros H. unfold field. destruct (dict_get k d) as [x|]; [|reflexivity].
  cbn [bind]. apply load_strs_grown_other. congruence.
Qed.

Lemma field_strs_same (k : string) (d : dict pyval) (xs : list string) :
  dict_get k d = Some (VRef l) ->
  field k (load_strs h) d = Some xs ->
  field k (load_strs h2) d = Some (xs ++ [m]).
Proof.
  unfold field. intros ->. cbn [bind]. apply load_strs_grown_same.
Qed.

(** The state read after the append is the state with one more issue. *)
Lemma load_results_grown (res : loc) (d : dict pyval) (st : results) :
  load_dict h (VRef res) = Some d ->
  dict_get "compatibility_issues" d = Some (VRef l) ->
  dict_get "performance_concerns" d <> Some (VRef l) ->
  dict_get "recommendations" d <> Some (VRef l) ->
  load_results h res = Some st ->
  load_results h2 res = Some (add_issue m st).
Proof.
  intros Hd Hci Hpc Hrecs. unfold load_results.
  rewrite load_dict_grown, Hd. cbn [bind].
  rewrite (field_grown load_file_analysis _ _ load_file_analysis_grown).
  rewrite (field_grown load_counts _ _ load_counts_grown).
  rewrite (field_strs_other "performance_concerns" _ Hpc).
  rewrite (field_strs_other "recommendations" _ Hrecs).
  destruct (field "file_analysis" (load_file_analysis h) d) as [fa|];
    [|discriminate]. cbn [bind].
  destruct (field "compatibility_issues" (load_strs h) d) as [ci|] eqn:Eci;
    [|discriminate].
  rewrite (field_strs_same _ _ _ Hci Eci). cbn [bind].
  destruct (field "responsive_design" (load_counts h) d) as [rd|];
    [|discriminate]. cbn [bind].
  destruct (field "performance_concerns" (load_strs h) d) as [pc|];
    [|discriminate]. cbn [bind].
  destruct (field "recommendations" (load_strs h) d) as [recs|];
    [|discriminate]. cbn [bind].
  intros H. injection H as <-. reflexivity.
Qed.

(** A report that holds the same list reads with one more issue, and with
    the summary and the assessment it was built with. *)
Lemma load_report_grown (r : loc) (d : dict pyval) (rep : report) :
  load_dict h (VRef r) = Some d ->
  dict_get "compatibility_issues" d = Some (VRef l) ->
  dict_get "performance_concerns" d <> Some (VRef l) ->
  dict_get "recommendations" d <> Some (VRef l) ->
  load_report h r = Some rep ->
  load_report h2 r = Some (with_late_issue m rep).
Proof.
  intros Hd Hci Hpc Hrecs. unfold load_report.
  rewrite load_dict_grown, Hd. cbn [bind].
  rewrite (field_grown load_summary _ _ load_summary_grown).
  rewrite (field_grown load_file_analysis _ _ load_file_analysis_grown).
  rewrite (field_grown load_counts _ _ load_counts_grown).
  rewrite (field_strs_other "performance_concerns" _ Hpc).
  rewrite (field_strs_other "recommendations" _ Hrecs).
  destruct (field "summary" (load_summary h) d) as [s|]; [|discriminate].
  cbn [bind].
  destruct (field "compatibility_issues" (load_strs h) d) as [ci|] eqn:Eci;
    [|discriminate].
  rewrite (field_strs_same _ _ _ Hci Eci). cbn [bind].
  destruct (field "responsive_design" (load_counts h) d) as [rd|];
    [|discriminate]. cbn [bind].
  destruct (field "performance_concerns" (load_strs h) d) as [pc|];
    [|discriminate]. cbn [bind].
  destruct (field "recommendations" (load_strs h) d) as [recs|];
    [|discriminate]. cbn [bind].
  destruct (field "file_analysis" (load_file_analysis h) d) as [fa|];
    [|discriminate]. cbn [bind].
  destruct (field "overall_assessment" as_str d) as [a|]; [|discriminate].
  cbn [bind]. intros H. injection H as <-. reflexivity.
Qed.

End Grown.

(** The store after one call of the builder, written out. *)
Lemma report_on_store_shape (h : heap) (res : loc) (st : results) :
  load_results h res = Some st ->
  exists d vfa vci vrd vpc vrecs,
    nth_error h res = Some (ODict d)
    /\ dict_get "file_analysis" d = Some vfa
    /\ dict_get "compatibility_issues" d = Some vci
    /\ dict_get "responsive_design" d = Some vrd
    /\ dict_get "performance_concerns" d = Some vpc
    /\ dict_get "recommendations" d = Some vrecs
    /\ load_strs h vci = Some (compatibility_issues st)
    /\ generate_compatibility_report_on res h
       = Some (S (List.length h),
               (h ++ [ODict [("files_analyzed", VInt (List.length (file_analysis st)));
                             ("issues_found",
                              VInt (List.length (compatibility_issues st)));
                             ("recommendations",
                              VInt (List.length (recommendations st)))]])
               ++ [ODict [("summary", VRef (List.length h));
                          ("compatibility_issues", vci);
                          ("responsive_design", vrd);
                          ("performance_concerns", vpc);
                          ("recommendations", vrecs);
                          ("file_analysis", vfa);
                          ("overall_assessment",
                           VStr (assessment
                                   (List.length (compatibility_issues st))))]]).
Proof.
  unfold load_results, field. intros H.
  destruct (load_dict h (VRef res)) as [d|] eqn:Ed; [|discriminate].
  cbn [bind] in H.
  destruct (dict_get "file_analysis" d) as [vfa|] eqn:Kfa; [|discriminate].
  cbn [bind] in H.
  destruct (load_file_analysis h vfa) as [fa|] eqn:Lfa; [|discriminate].
  cbn [bind] in H.
  destruct (dict_get "compatibility_issues" d) as [vci|] eqn:Kci; [|discriminate].
  cbn [bind] in H.
  destruct (load_strs h vci) as [ci|] eqn:Lci; [|discriminate].
  cbn [bind] in H.
  destruct (dict_get "responsive_design" d) as [vrd|] eqn:Krd; [|discriminate].
  cbn [bind] in H.
  destruct (load_counts h vrd) as [rd|] eqn:Lrd; [|discriminate].
  cbn [bind] in H.
  destruct (dict_get "performance_concerns" d) as [vpc|] eqn:Kpc; [|discriminate].
  cbn [bind] in H.
  destruct (load_strs h vpc) as [pc|] eqn:Lpc; [|discriminate].
  cbn [bind] in H.
  destruct (dict_get "recommendations" d) as [vrecs|] eqn:Krecs; [|discriminate].
  cbn [bind] in H.
  destruct (load_strs h vrecs) as [recs|] eqn:Lrecs; [|discriminate].
  cbn [bind] in H. injection H as <-.
  assert (Hres : nth_error h res = Some (ODict d)).
  { unfold load_dict in Ed. destruct (nth_error h res) as [[|]|]; congruence. }
  exists d, vfa, vci, vrd, vpc, vrecs.
  repeat (split; [first [assumption | reflexivity]|]).
  cbn [file_analysis compatibility_issues recommendations].
  assert (G : forall t k, getitem (h ++ t) res k = dict_get k d).
  { intros t k. unfold getitem. now rewrite (preserves_app h t _ _ Hres). }
  pose proof (G []) as G0. rewrite app_nil_r in G0.
  unfold generate_compatibility_report_on, alloc.
  rewrite !G0, Kfa, Kci, Krecs. cbn [bind].
  rewrite (py_len_file_analysis _ _ _ Lfa), (py_len_strs _ _ _ Lci),
    (py_len_strs _ _ _ Lrecs). cbn [bind].
  rewrite !G, Kci, Krd, Kpc, Krecs, Kfa. cbn [bind].
  rewrite <- app_assoc, G, Kci. cbn [bind].
  rewrite (py_len_preserved _ _ (preserves_app h _) _ _ (py_len_strs _ _ _ Lci)).
  cbn [bind]. rewrite app_assoc, length_app. cbn [List.length].
  replace (List.length h + 1) with (List.length (h ++ [ODict
     [("files_analyzed", VInt (List.length fa));
      ("issues_found", VInt (List.length ci));
      ("recommendations", VInt (List.length recs))]]))
    by (rewrite length_app; reflexivity).
  rewrite setitem_new. cbn [bind].
  rewrite length_app. cbn [List.length dict_set String.eqb Ascii.eqb Bool.eqb].
  now rewrite Nat.add_1_r.
Qed.

(** X14. The report holds the very list of issues of the validator.  When
    an analyzer appends an issue after a report was built, that report shows
    the new issue in its list, while its [issues_found] and its overall
    assessment stay as they were computed. *)
Theorem report_sees_later_issues (h : heap) (res : loc) (st : results)
  (msg : string) :
  load_results h res = Some st ->
  getitem h res "performance_concerns" <> getitem h res "compatibility_issues" ->
  getitem h res "recommendations" <> getitem h res "compatibility_issues" ->
  exists r h1 h2,
    generate_compatibility_report_on res h = Some (r, h1)
    /\ load_report h1 r = Some (generate_compatibility_report st)
    /\ add_issue_on res msg h1 = Some h2
    /\ load_results h2 res = Some (add_issue msg st)
    /\ load_report h2 r
       = Some (with_late_issue msg (generate_compatibility_report st)).
Proof.
  intros Hst Hpc Hrecs.
  destruct (report_on_store_shape h res st Hst)
    as (d & vfa & vci & vrd & vpc & vrecs
        & Hres & Kfa & Kci & Krd & Kpc & Krecs & Lci & Hgen).
  destruct (report_on_store h res st Hst) as (r & h1 & Hgen' & Hp & Hrep).
  rewrite Hgen in Hgen'. injection Hgen' as Hr Hh1.
  unfold getitem in Hpc, Hrecs. rewrite Hres, Kci in Hpc, Hrecs.
  rewrite Kpc in Hpc. rewrite Krecs in Hrecs.
  (* the list of issues is an object of the first store *)
  assert (exists l items, vci = VRef l /\ nth_error h l = Some (OList items))
    as (l & items & -> & Hl).
  { unfold load_strs, load_list in Lci. destruct vci as [| | |l]; try discriminate.
    destruct (nth_error h l) as [[items|]|] eqn:E; try discriminate.
    now exists l, items. }
  pose proof (Hp _ _ Hl) as Hl1. pose proof (Hp _ _ Hres) as Hres1.
  pose proof (load_results_preserved _ _ Hp _ _ Hst) as Hst1.
  assert (Hr1 : load_dict h1 (VRef r)
                = Some [("summary", VRef (List.length h));
                        ("compatibility_issues", VRef l);
                        ("responsive_design", vrd);
                        ("performance_concerns", vpc);
                        ("recommendations", vrecs);
                        ("file_analysis", vfa);
                        ("overall_assessment",
                         VStr (assessment (List.length (compatibility_issues st))))]).
  { rewrite <- Hr, <- Hh1. unfold load_dict.
    replace (S (List.length h)) with (List.length (h ++ [ODict
       [("files_analyzed", VInt (List.length (file_analysis st)));
        ("issues_found", VInt (List.length (compatibility_issues st)));
        ("recommendations", VInt (List.length (recommendations st)))]]))
      by (rewrite length_app; cbn; lia).
    now rewrite nth_error_new. }
  exists r, h1, (replace_at l (OList (items ++ [VStr msg])) h1).
  split; [now rewrite Hgen, Hr, Hh1|]. split; [exact Hrep|]. split; [|split].
  - unfold add_issue_on, getitem, append_item. rewrite Hres1, Kci. cbn [bind].
    now rewrite Hl1.
  - apply (load_results_grown h1 l items msg Hl1 res d st);
      [ unfold load_dict; now rewrite Hres1
      | exact Kci
      | rewrite Kpc; exact Hpc
      | rewrite Krecs; exact Hrecs
      | exact Hst1 ].
  - apply (load_report_grown h1 l items msg Hl1 r _ _ Hr1);
      [ reflexivity | exact Hpc | exact Hrecs | exact Hrep ].
Qed.

Lemma report_sees_later_issues_witness :
  exists r h1 h2,
    generate_compatibility_report_on 6 sample_heap = Some (r, h1)
    /\ load_report h1 r = Some (generate_compatibility_report sample_results)
    /\ add_issue_on 6 try_catch_msg h1 = Some h2
    /\ load_results h2 6 = Some (add_issue try_catch_msg sample_results)
    /\ load_report h2 r
       = Some (with_late_issue try_catch_msg
                 (generate_compatibility_report sample_results)).
Proof.
  apply (report_sees_later_issues sample_heap 6 sample_results try_catch_msg eq_refl);
    discriminate.
Defined.

(* ================================================================== *)
(** ** Opening browsers *)

Lemma try_browsers_from (w : web) (browsers : list string) (n : nat)
  (log : list browser_call) :
  fold_left (fun acc browser =>
               if browser_known w browser
               then (fst acc + 1, snd acc ++ [OpenIn browser])
               else acc)
            browsers (n, log)
  = (n + List.length (filter (browser_known w) browsers),
     log ++ map OpenIn (filter (browser_known w) browsers)).
Proof.
  revert n log; induction browsers as [|b bs IH]; intros n log.
  - cbn. now rewrite Nat.add_0_r, app_nil_r.
  - cbn [fold_left filter]. destruct (browser_known w b).
    + rewrite IH. cbn [fst snd map List.length].
      rewrite <- app_assoc. cbn [app]. f_equal. lia.
    + apply IH.
Qed.

(** X15. When [urlparse] raises on the URL, [open_in_browsers] raises too
    and opens nothing.  Otherwise it returns [False], having opened
    nothing, when the URL has no scheme or no network location, and [True]
    when it has both; then it opens each of chrome, firefox, safari and edge
    that the system knows, in that order, and the default browser exactly
    when it knows none of them. *)
Theorem open_in_browsers_calls (w : web) (url : string) :
  open_in_browsers w url
  = match urlparse w url with
    | None => None
    | Some (scheme, netloc) =>
        let valid := negb (String.eqb scheme "") && negb (String.eqb netloc "") in
        Some (valid,
              if valid
              then match filter (browser_known w) browsers_to_try with
                   | [] => [OpenDefault]
                   | known => map OpenIn known
                   end
              else [])
    end.
Proof.
  unfold open_in_browsers.
  destruct (urlparse w url) as [[scheme netloc]|]; [|reflexivity].
  cbn [fst snd].
  destruct (String.eqb scheme ""); destruct (String.eqb netloc "");
    cbn [orb negb andb]; try reflexivity.
  unfold try_browsers. rewrite try_browsers_from. cbn [fst snd app Nat.add].
  destruct (filter (browser_known w) browsers_to_try) as [|b known];
    reflexivity.
Qed.
